(** * gethighs: the solution-file side of the HiGHS driver

    A shallow embedding of [gethighs/solver.py]: the completion check on the
    solution file, the line-oriented decoder [_read_values_from_sol], the
    numeric post-processing [truncate], the warm-start writer
    [_write_warmstartfile] and the time-limit fragment of the command line.

    File contents are the text that Python's text-mode [read] / [readlines]
    hand to the program; a file being written is the concatenation of the
    strings passed to [write]. *)

From Stdlib Require Import ZArith List String Ascii Bool Lia.
From Stdlib Require Import DecimalString DecimalNat.
Import ListNotations.

Local Open Scope string_scope.
Local Open Scope list_scope.
Local Open Scope Z_scope.

(* ------------------------------------------------------------------ *)
(** ** Python string primitives used by the solver *)

Module PyStr.

(** The line terminator ["\n"]. *)
Definition LF : ascii := "010"%char.
Definition nl : string := String LF "".

(** [s.startswith(p)] *)
Fixpoint startswith (p s : string) : bool :=
  match p, s with
  | "", _ => true
  | String _ _, "" => false
  | String a p', String b s' => Ascii.eqb a b && startswith p' s'
  end.

(** [sub in s] *)
Fixpoint str_in (sub s : string) : bool :=
  match s with
  | "" => startswith sub ""
  | String _ s' => startswith sub s || str_in sub s'
  end.

(** [s.endswith(suf)] *)
Fixpoint endswith (s suf : string) : bool :=
  if String.eqb s suf then true
  else match s with
       | "" => false
       | String _ s' => endswith s' suf
       end.

(** [s.rstrip("\n")] *)
Fixpoint rstrip_nl (s : string) : string :=
  match s with
  | "" => ""
  | String c s' =>
      match rstrip_nl s' with
      | "" => if Ascii.eqb c LF then "" else String c ""
      | r => String c r
      end
  end.

(** [s.split(sep=" ", maxsplit=1)]: always one or two pieces. *)
Fixpoint split1 (s : string) : list string :=
  match s with
  | "" => [""]
  | String c s' =>
      if Ascii.eqb c " " then [""; s']
      else match split1 s' with
           | h :: t => String c h :: t
           | [] => [String c ""]
           end
  end.

(** [file.readlines()]: every line keeps its terminator; the last line may
    lack one. *)
Fixpoint readlines (txt : string) : list string :=
  match txt with
  | "" => []
  | String c txt' =>
      if Ascii.eqb c LF then nl :: readlines txt'
      else match readlines txt' with
           | l :: ls => String c l :: ls
           | [] => [String c ""]
           end
  end.

(** Every character of [s] satisfies [p]. *)
Fixpoint all_chars (p : ascii -> bool) (s : string) : bool :=
  match s with
  | "" => true
  | String c s' => p c && all_chars p s'
  end.

(** [s] has neither a blank nor a line terminator in it. *)
Definition plain (s : string) : bool :=
  all_chars (fun c => negb (Ascii.eqb c " ") && negb (Ascii.eqb c LF)) s.

(** The characters ["0"] to ["9"]. *)
Definition is_digit (c : ascii) : bool :=
  let n := nat_of_ascii c in ((48 <=? n) && (n <=? 57))%nat.

(** [s.count(c)] for a character. *)
Fixpoint count_char (c : ascii) (s : string) : nat :=
  match s with
  | "" => O
  | String x s' => (if Ascii.eqb x c then 1 else 0) + count_char c s'
  end.

(** The text whose lines are [ls], each followed by its terminator. *)
Fixpoint unlines (ls : list string) : string :=
  match ls with
  | [] => ""
  | l :: ls' => l ++ nl ++ unlines ls'
  end.

(** [str(n)] for a non-negative [int]. *)
Definition str_nat (n : nat) : string :=
  NilZero.string_of_uint (Nat.to_uint n).

(** [str(z)] for an [int]. *)
Definition str_int (z : Z) : string :=
  NilZero.string_of_int (Z.to_int z).

End PyStr.
Import PyStr.

(* ------------------------------------------------------------------ *)
(** ** Exceptions and results *)

Definition SOL_ERROR_MSG : string :=
  "HiGHS failed when writing the solution file - It is incomplete. Try setting a longer `sleep_time`. Insert a 'try-except' block and re-solve the problem".

Inductive exn : Type :=
| IndexError
| ValueError
| OverflowError
| SystemError (msg : string).

(** The outcome of running a piece of the program: it returns, it raises, or
    the step budget given to its [while] loop ran out before it did either. *)
Inductive result (A : Type) : Type :=
| Normal (a : A)
| Raise (e : exn)
| OutOfFuel.
Arguments Normal {A} a.
Arguments Raise {A} e.
Arguments OutOfFuel {A}.

(** Sequencing of results. *)
Definition bind {A B : Type} (m : result A) (k : A -> result B) : result B :=
  match m with
  | Normal a => k a
  | Raise e => Raise e
  | OutOfFuel => OutOfFuel
  end.

Notation "x <- m ;; k" := (bind m (fun x => k))
  (at level 61, m at next level, right associativity).

(** [l[i]] for a non-negative index. *)
Definition getitem {A : Type} (l : list A) (i : nat) : result A :=
  match nth_error l i with
  | Some a => Normal a
  | None => Raise IndexError
  end.

(** [l[-1]] *)
Definition getitem_last (l : list string) : result string :=
  match l with
  | [] => Raise IndexError
  | _ :: _ => Normal (last l "")
  end.

(* ------------------------------------------------------------------ *)
(** ** The float operations the solver borrows from Python and numpy

    [float], [str], [round], [abs], [+], [10 ** (-p)], [bool] and
    [math.floor(np.log10(y))] are not code of this package.  They are an
    interface here; the solver is written against it. *)

(** What [math.floor] does with a float: an [int], or [OverflowError] on an
    infinity, or [ValueError] on a NaN. *)
Inductive floor_result : Type :=
| Floor (n : Z)
| FloorOfInf
| FloorOfNaN.

Definition floor_outcome (r : floor_result) : result Z :=
  match r with
  | Floor n => Normal n
  | FloorOfInf => Raise OverflowError
  | FloorOfNaN => Raise ValueError
  end.

Class FloatOps (F : Type) : Type := {
  (** [float(s)]; [None] stands for [ValueError]. *)
  py_float : string -> option F;
  (** [str(x)], which is what an f-string applies to a float. *)
  py_str : F -> string;
  (** [round(x, ndigits)] *)
  py_round : F -> Z -> F;
  (** [abs(x)] *)
  py_abs : F -> F;
  (** [x + y] *)
  py_add : F -> F -> F;
  (** [10 ** (-p)] *)
  pow10_neg : Z -> F;
  (** [math.floor(np.log10(y))]: [np.log10] itself never raises (it
      returns [-inf] at zero and NaN below it), [math.floor] does on an
      infinity or a NaN. *)
  floor_log10 : F -> floor_result;
  (** [bool(x)] *)
  py_bool : F -> bool
}.

(* ------------------------------------------------------------------ *)
(** ** The solver *)

Section Solver.

Context {F : Type} {FO : FloatOps F}.

(** What the solver sees of a Pyomo component: whether
    [pyo.is_variable_type] holds of it, and its mutable [.value]. *)
Record pyobj : Type := {
  is_variable_type : bool;
  value : option F
}.

(** Components are shared objects: the symbol table holds references,
    the heap holds the objects. *)
Definition oid : Type := nat.
Definition heap : Type := oid -> pyobj.

(** [obj.value = v] *)
Definition set_value (hp : heap) (o : oid) (v : F) : heap :=
  fun o' =>
    if Nat.eqb o' o
    then {| is_variable_type := is_variable_type (hp o'); value := Some v |}
    else hp o'.

(** [self.all_symbols]: a dict from symbol to component, in insertion
    order. *)
Definition symtab : Type := list (string * oid).

(** [self.all_symbols[key]], [None] when [key not in self.all_symbols.keys()]. *)
Fixpoint lookup (all_symbols : symtab) (key : string) : option oid :=
  match all_symbols with
  | [] => None
  | (k, o) :: rest => if String.eqb k key then Some o else lookup rest key
  end.

(** *** [truncate] *)

Definition truncate (x : F) (precision : Z) : result F :=
  base <- floor_outcome
            (floor_log10 (py_add (py_abs x) (pow10_neg precision))) ;;
  let digits := Z.max (precision - base) 1 in
  Normal (py_round x digits).

(** The post-processing as the specification words it (section 4.3):
    round to [R] places; [base = floor(log10(|value| + 10^-P))];
    [digits = max(P - base, 1)]; round the first result to [digits]
    places. *)
Definition normalize (v : F) (R P : Z) : result F :=
  let step1 := py_round v R in
  base <- floor_outcome
            (floor_log10 (py_add (py_abs step1) (pow10_neg P))) ;;
  let digits := Z.max (P - base) 1 in
  Normal (py_round step1 digits).

(** *** [_read_values_from_sol] *)

(** The three locals of the method. *)
Record locals : Type := {
  status : option string;
  primal_solutions : option string;
  objective : option F
}.

Definition is_None {A : Type} (x : option A) : bool :=
  match x with None => true | Some _ => false end.

(** The [while status is None and j <= 10] loop of one iteration of the
    [for]; [fuel] bounds the number of times its condition is evaluated. *)
Fixpoint while_status (fuel : nat) (lines : list string) (j : nat)
    (line : string) (st : locals) : result locals :=
  match fuel with
  | O => OutOfFuel
  | S fuel' =>
      if is_None (status st) && (j <=? 10)%nat then
        if str_in "Model status" line then
          l <- getitem lines (j + 1) ;;
          while_status fuel' lines j line
            {| status := Some (rstrip_nl l);
               primal_solutions := primal_solutions st;
               objective := objective st |}
        else
          while_status fuel' lines j line st
      else Normal st
  end.

(** The value token of the objective line [l2]: the last piece of the
    split of the stripped line. *)
Definition objective_token (l2 : string) : string :=
  last (split1 (rstrip_nl l2)) "".

(** The [else] clause of that [while]: it runs once the condition is
    false.  The heap is returned in every case, since an assignment made
    before an exception stays made. *)
Definition else_clause (rounding_digits truncate_precision : Z)
    (all_symbols : symtab) (lines : list string) (j : nat) (line : string)
    (st : locals) (hp : heap) : heap * result locals :=
  if str_in "# Primal solution values" line then
    (hp,
     l1 <- getitem lines (j + 1) ;;
     let primal_solutions' := Some (rstrip_nl l1) in
     l2 <- getitem lines (j + 2) ;;
     let objective_line := rstrip_nl l2 in
     let splt := split1 objective_line in
     tok <- getitem_last splt ;;
     match py_float tok with
     | Some v =>
         Normal {| status := status st;
                   primal_solutions := primal_solutions';
                   objective := Some v |}
     | None =>
         Normal {| status := status st;
                   primal_solutions := primal_solutions';
                   objective := objective st |}
     end)
  else
    let splt := split1 line in
    match getitem splt 0 with
    | Normal key =>
        match lookup all_symbols key with
        | Some o =>
            if is_variable_type (hp o) then
              if (0 <? List.length splt)%nat then
                match
                  (txt <- getitem splt 1 ;;
                   match py_float txt with
                   | Some v => truncate (py_round v rounding_digits) truncate_precision
                   | None => Raise ValueError
                   end)
                with
                | Normal v => (set_value hp o v, Normal st)
                | Raise e => (hp, Raise e)
                | OutOfFuel => (hp, OutOfFuel)
                end
              else (hp, Raise (SystemError SOL_ERROR_MSG))
            else (hp, Normal st)
        | None => (hp, Normal st)
        end
    | Raise e => (hp, Raise e)
    | OutOfFuel => (hp, OutOfFuel)
    end.

(** [for j, line in enumerate(lines)], from index [j] on; [rest] is
    [lines[j:]]. *)
Fixpoint for_lines (fuel : nat) (rounding_digits truncate_precision : Z)
    (all_symbols : symtab) (lines : list string) (j : nat)
    (rest : list string) (st : locals) (hp : heap) : heap * result locals :=
  match rest with
  | [] => (hp, Normal st)
  | line :: rest' =>
      match while_status fuel lines j line st with
      | Normal st1 =>
          match else_clause rounding_digits truncate_precision
                  all_symbols lines j line st1 hp with
          | (hp', Normal st2) =>
              for_lines fuel rounding_digits truncate_precision
                all_symbols lines (S j) rest' st2 hp'
          | (hp', r) => (hp', r)
          end
      | Raise e => (hp, Raise e)
      | OutOfFuel => (hp, OutOfFuel)
      end
  end.

(** The method, on the text of the solution file.  On a normal return the
    three locals are what it stores into [self.status],
    [self.primal_solutions] and [self.objective]. *)
Definition _read_values_from_sol (fuel : nat)
    (rounding_digits truncate_precision : Z) (all_symbols : symtab)
    (file_txt : string) (hp : heap) : heap * result locals :=
  let lines := readlines file_txt in
  for_lines fuel rounding_digits truncate_precision all_symbols lines 0 lines
    {| status := None; primal_solutions := None; objective := None |} hp.

(** *** [n_var] and [_write_warmstartfile] *)

Definition n_var (all_symbols : symtab) (hp : heap) : nat :=
  list_sum
    (map (fun _ => 1%nat)
       (filter (fun kv => is_variable_type (hp (snd kv))) all_symbols)).

(** [file.write(s)] on the text written so far. *)
Definition write (file s : string) : string := file ++ s.

Definition _write_warmstartfile (all_symbols : symtab) (hp : heap) : string :=
  let file := "" in
  let file := write file ("Model status" ++ nl) in
  let file := write file ("Unknown" ++ nl ++ nl) in
  let file := write file ("# Primal solution values" ++ nl) in
  let file := write file ("Unknown" ++ nl) in
  let file := write file ("Objective Unknown" ++ nl) in
  let N := n_var all_symbols hp in
  let file := write file ("# Columns " ++ str_nat N ++ nl) in
  fold_left
    (fun file kv =>
       let '(key, o) := kv in
       if is_variable_type (hp o) then
         match value (hp o) with
         | None => write file (key ++ " 0.0" ++ nl)
         | Some v => write file (key ++ " " ++ py_str v ++ nl)
         end
       else file)
    all_symbols file.

(** The warm-start file as the specification words it (section 4.4):
    the fixed header lines, [# Columns <N>] with [N] the number of
    decision-variable symbols, then one row per such symbol in table
    order, [0.0] when it has no value and its raw value otherwise. *)
Definition decision_variables (all_symbols : symtab) (hp : heap) : symtab :=
  filter (fun kv => is_variable_type (hp (snd kv))) all_symbols.

Definition row_value (hp : heap) (o : oid) : string :=
  match value (hp o) with
  | None => "0.0"
  | Some v => py_str v
  end.

Definition warmstart_row (hp : heap) (kv : string * oid) : string :=
  fst kv ++ " " ++ row_value hp (snd kv).

Definition warmstart_lines (all_symbols : symtab) (hp : heap) : list string :=
  let vars := decision_variables all_symbols hp in
  ["Model status"; "Unknown"; ""; "# Primal solution values"; "Unknown";
   "Objective Unknown";
   ("# Columns " ++ str_nat (List.length vars))%string]
    ++ map (warmstart_row hp) vars.

(** A symbol the writer can put in front of a row and the decoder can
    find again: no blank and no line break in it, and not the first word
    of a header line of the file. *)
Definition symbol_ok (key : string) : bool :=
  plain key
  && negb (String.eqb key "Model")
  && negb (String.eqb key "Objective")
  && negb (String.eqb key "#").

(** *** [_cmd_timelim] and the command line of [solve] *)

(** The values [time_limit] may hold: [float | int | str | None]. *)
Inductive pyval : Type :=
| PyNone
| PyInt (z : Z)
| PyFloat (x : F)
| PyStr (s : string).

(** Truth value of [if v:] *)
Definition truthy (v : pyval) : bool :=
  match v with
  | PyNone => false
  | PyInt z => negb (z =? 0)
  | PyFloat x => py_bool x
  | PyStr s => negb (String.eqb s "")
  end.

(** What an f-string prints for [v]. *)
Definition fmt (v : pyval) : string :=
  match v with
  | PyNone => "None"
  | PyInt z => str_int z
  | PyFloat x => py_str x
  | PyStr s => s
  end.

Definition _cmd_timelim (time_limit : pyval) : string :=
  if truthy time_limit then " --time_limit " ++ fmt time_limit
  else "".

(** [cmd_line] as [solve] assembles it; [rsf] is [""] or
    ["--read_solution_file <warmstart_file> "]. *)
Definition cmd_line (executable : string) (time_limit : pyval)
    (solfile rsf options_file modelfile : string) : string :=
  let cmd_time := _cmd_timelim time_limit in
  executable ++ " " ++ cmd_time ++ " --solution_file " ++ solfile ++ " "
    ++ rsf ++ "--options_file " ++ options_file ++ " " ++ modelfile.

(** The [rsf] fragment of [solve]. *)
Definition rsf_of (warmstart : bool) (warmstart_file : string) : string :=
  if warmstart then "--read_solution_file " ++ warmstart_file ++ " " else "".

End Solver.

Arguments pyobj F : clear implicits.
Arguments heap F : clear implicits.
Arguments locals F : clear implicits.
Arguments pyval F : clear implicits.

(** The completion check as the specification words it (section 4.1): the
    text contains the structural marker and ends with a line terminator. *)
Definition basis_marker : string := "# Basis" ++ nl ++ "HiGHS".

Definition contains (sub s : string) : Prop :=
  exists l r, s = (l ++ sub ++ r)%string.

Definition ends_with_newline (s : string) : Prop :=
  exists body, s = (body ++ nl)%string.

Definition _check_complete_sol (file_txt : string) : bool :=
  let check := str_in ("# Basis" ++ nl ++ "HiGHS") file_txt in
  let check := check && endswith file_txt nl in
  check.

(* ------------------------------------------------------------------ *)
(** ** An executable instance of the float interface: decimals in the
    range of binary64

    A finite value is [dmant * 10 ^ dexp], kept with a mantissa that does
    not end in zero, so that equal values are equal terms.  The range is
    that of binary64: what [float], [+] and [10 ** (-p)] produce is an
    infinity from [2^1024 - 2^970] on and zero up to [2^-1075], the two
    places where a double rounds to them.  Inside the range the values
    are exact decimals: the rounding of the 53-bit significand is not
    modelled, and [np.log10] is the exact logarithm.  The two infinities
    and NaN are included because [float] reads them and [math.floor]
    raises on them. *)

Module DecFloat.

Record dec : Type := mkdec { dmant : Z; dexp : Z }.

Inductive t : Type :=
| Fin (d : dec)
| Inf (negative : bool)
| NaN.

Fixpoint strip0 (fuel : nat) (m e : Z) : dec :=
  match fuel with
  | O => mkdec m e
  | S fuel' =>
      if m mod 10 =? 0 then strip0 fuel' (m / 10) (e + 1) else mkdec m e
  end.

(** The representative without trailing zeros in the mantissa. *)
Definition dnorm (d : dec) : dec :=
  if dmant d =? 0 then mkdec 0 0
  else strip0 (Z.to_nat (Z.log2 (Z.abs (dmant d)))) (dmant d) (dexp d).

Definition dabs (d : dec) : dec := mkdec (Z.abs (dmant d)) (dexp d).

(** The mantissa of [d] at the exponent [E], for [E <= dexp d]. *)
Definition scaled (d : dec) (E : Z) : Z := dmant d * 10 ^ (dexp d - E).

(** [a <= b] as numbers. *)
Definition dle (a b : dec) : bool :=
  let E := Z.min (dexp a) (dexp b) in
  scaled a E <=? scaled b E.

(** The largest double; the least magnitude that rounds to an infinity;
    the largest magnitude that rounds to zero, [2^-1075]. *)
Definition dbl_max : dec := mkdec ((2 ^ 53 - 1) * 2 ^ 971) 0.
Definition huge : dec := mkdec (2 ^ 1024 - 2 ^ 970) 0.
Definition tiny : dec := mkdec (5 ^ 1075) (- 1075).

(** [d] is no larger in magnitude than the largest double. *)
Definition in_range (d : dec) : bool := dle (dabs d) dbl_max.

Definition dadd (a b : dec) : dec :=
  let e := Z.min (dexp a) (dexp b) in
  dnorm (mkdec (dmant a * 10 ^ (dexp a - e) + dmant b * 10 ^ (dexp b - e)) e).

(** [m / 10 ^ k] rounded to the nearest integer, ties to the even one. *)
Definition round_half_even (m k : Z) : Z :=
  let p := 10 ^ k in
  let q := m / p in
  let r := m mod p in
  if 2 * r <? p then q
  else if p <? 2 * r then q + 1
  else if Z.even q then q else q + 1.

(** Rounding to [n] decimal places. *)
Definition dround (d : dec) (n : Z) : dec :=
  let k := - n - dexp d in
  if k <=? 0 then dnorm d
  else dnorm (mkdec (round_half_even (dmant d) k) (- n)).

Fixpoint ilog10 (fuel : nat) (m : Z) : Z :=
  match fuel with
  | O => 0
  | S fuel' => if m <? 10 then 0 else 1 + ilog10 fuel' (m / 10)
  end.

(** [floor (log10 m)] for [m >= 1]. *)
Definition zlog10 (m : Z) : Z := ilog10 (S (Z.to_nat (Z.log2 m))) m.

(** [log10] of zero is [-inf], of a negative number NaN. *)
Definition dfloor_log10 (d : dec) : floor_result :=
  if 0 <? dmant d then Floor (zlog10 (dmant d) + dexp d)
  else if dmant d =? 0 then FloorOfInf
  else FloorOfNaN.

(** *** Reading a float: [float(s)] *)

Definition is_space (c : ascii) : bool :=
  let n := nat_of_ascii c in
  ((9 <=? n) && (n <=? 13) || (28 <=? n) && (n <=? 32))%nat.

Definition digit_val (c : ascii) : Z := Z.of_nat (nat_of_ascii c) - 48.

Definition lower (c : ascii) : ascii :=
  let n := nat_of_ascii c in
  if ((65 <=? n) && (n <=? 90))%nat then ascii_of_nat (n + 32) else c.

Fixpoint lower_str (s : string) : string :=
  match s with
  | "" => ""
  | String c s' => String (lower c) (lower_str s')
  end.

Fixpoint lstrip (s : string) : string :=
  match s with
  | "" => ""
  | String c s' => if is_space c then lstrip s' else s
  end.

Fixpoint rstrip (s : string) : string :=
  match s with
  | "" => ""
  | String c s' =>
      match rstrip s' with
      | "" => if is_space c then "" else String c ""
      | r => String c r
      end
  end.

(** The longest run of digits at the head of [s]: its value read after
    [acc], its length, and what follows. *)
Fixpoint digits (acc : Z) (s : string) : Z * nat * string :=
  match s with
  | "" => (acc, O, "")
  | String c s' =>
      if is_digit c then
        let '(v, n, rest) := digits (acc * 10 + digit_val c) s' in
        (v, S n, rest)
      else (acc, O, s)
  end.

Definition sign_of (s : string) : bool * string :=
  match s with
  | String "-" s' => (true, s')
  | String "+" s' => (false, s')
  | _ => (false, s)
  end.

(** The optional exponent part; [None] when the text is malformed. *)
Definition exponent (s : string) : option Z :=
  match s with
  | "" => Some 0
  | String c s' =>
      if String.eqb (String (lower c) "") "e" then
        let '(neg, s1) := sign_of s' in
        match digits 0 s1 with
        | (v, S _, "") => Some (if neg then - v else v)
        | _ => None
        end
      else None
  end.

(** An underscore may stand between two digits and nowhere else; the
    text is read without them.  [prev] is the character before [s]. *)
Fixpoint drop_underscores (prev : ascii) (s : string) : option string :=
  match s with
  | "" => if Ascii.eqb prev "_" then None else Some ""
  | String c s' =>
      if Ascii.eqb c "_" then
        if is_digit prev then drop_underscores c s' else None
      else if Ascii.eqb prev "_" && negb (is_digit c) then None
      else option_map (String c) (drop_underscores c s')
  end.

(** A finite value brought into the range of binary64. *)
Definition clamp (d : dec) : t :=
  if dle huge (dabs d) then Inf (dmant d <? 0)
  else if dle (dabs d) tiny then Fin (mkdec 0 0)
  else Fin d.

Definition parse (s : string) : option t :=
  let s := rstrip (lstrip s) in
  match drop_underscores "000" s with
  | None => None
  | Some s =>
      let '(neg, s1) := sign_of s in
      let w := lower_str s1 in
      if String.eqb w "inf" || String.eqb w "infinity" then Some (Inf neg)
      else if String.eqb w "nan" then Some NaN
      else
        let '(ip, n_ip, s2) := digits 0 s1 in
        let '(m, n_fp, s3) :=
          match s2 with
          | String "." s2' => digits ip s2'
          | _ => (ip, O, s2)
          end in
        if (n_ip + n_fp =? 0)%nat then None
        else
          match exponent s3 with
          | Some ex =>
              let m := if neg then - m else m in
              Some (clamp (dnorm (mkdec m (ex - Z.of_nat n_fp))))
          | None => None
          end
  end.

(** *** Printing a float: [repr(x)] *)

Fixpoint zeros (n : nat) : string :=
  match n with
  | O => ""
  | S n' => String "0" (zeros n')
  end.

(** The exponent of the scientific notation: a sign and at least two
    digits. *)
Definition repr_exp (ex : Z) : string :=
  (if ex <? 0 then "-" else "+")
    ++ (if Z.abs ex <? 10 then "0" else "") ++ str_int (Z.abs ex).

Definition repr_dec (d : dec) : string :=
  let d := dnorm d in
  let m := dmant d in
  if m =? 0 then "0.0"
  else
    let sign := if m <? 0 then "-" else "" in
    let ds := str_int (Z.abs m) in
    let n := String.length ds in
    let decpt := Z.of_nat n + dexp d in
    sign ++
      (if (decpt <=? -4) || (16 <? decpt) then
         substring 0 1 ds
           ++ (if (1 <? n)%nat then "." ++ substring 1 (n - 1) ds else "")
           ++ "e" ++ repr_exp (decpt - 1)
       else if decpt <=? 0 then
         "0." ++ zeros (Z.to_nat (- decpt)) ++ ds
       else if Z.of_nat n <=? decpt then
         ds ++ zeros (Z.to_nat (decpt - Z.of_nat n)) ++ ".0"
       else
         substring 0 (Z.to_nat decpt) ds
           ++ "." ++ substring (Z.to_nat decpt) (n - Z.to_nat decpt) ds).

Definition repr (x : t) : string :=
  match x with
  | Fin d => repr_dec d
  | Inf false => "inf"
  | Inf true => "-inf"
  | NaN => "nan"
  end.

(** *** The interface *)

Definition round (x : t) (ndigits : Z) : t :=
  match x with
  | Fin d => Fin (dround d ndigits)
  | _ => x
  end.

Definition abs (x : t) : t :=
  match x with
  | Fin d => Fin (dabs d)
  | Inf _ => Inf false
  | NaN => NaN
  end.

Definition add (x y : t) : t :=
  match x, y with
  | Fin a, Fin b => clamp (dadd a b)
  | NaN, _ | _, NaN => NaN
  | Inf a, Inf b => if Bool.eqb a b then Inf a else NaN
  | Inf a, Fin _ | Fin _, Inf a => Inf a
  end.

Definition floor_of_log10 (y : t) : floor_result :=
  match y with
  | Fin d => dfloor_log10 d
  | Inf false => FloorOfInf
  | Inf true => FloorOfNaN
  | NaN => FloorOfNaN
  end.

Definition bool (x : t) : bool :=
  match x with
  | Fin d => negb (dmant d =? 0)
  | _ => true
  end.

#[global] Instance ops : FloatOps t := {
  py_float := parse;
  py_str := repr;
  py_round := round;
  py_abs := abs;
  py_add := add;
  pow10_neg := fun p => clamp (mkdec 1 (- p));
  floor_log10 := floor_of_log10;
  py_bool := bool
}.

(** A decimal literal [m * 10 ^ e]. *)
Definition lit (m e : Z) : t := Fin (mkdec m e).

End DecFloat.


(* ------------------------------------------------------------------ *)
(** ** Sample inputs *)

Module Sample.

(** A heap in which every component is a decision variable without a
    value. *)
Definition fresh_vars : heap DecFloat.t :=
  fun _ => {| is_variable_type := true; value := None |}.

Definition table_x1 : symtab := [("x1", 0%nat)].

(** The solution body of the specification's end-to-end example. *)
Definition sol_x1 : string :=
  unlines ["Model status"; "Optimal"; ""; "# Primal solution values"; "1";
           "Objective 42.0"; "x1 3.14159265"].


(** A complete solution file whose row for [x1] has no value token. *)
Definition sol_missing_value : string :=
  unlines ["Model status"; "Optimal"; ""; "# Primal solution values";
           "Feasible"; "Objective 42.0"; "# Columns 1"; "x1"; "# Rows 0";
           ""; "# Basis"; "HiGHS v1"; "None"].

(** A file that stops right after the symbol of its last row. *)
Definition sol_missing_value_eof : string :=
  unlines ["Model status"; "Optimal"; ""; "# Primal solution values";
           "Feasible"; "Objective 42.0"; "# Columns 1"] ++ "x1".

(** Rows at zero, below zero, of magnitude at least one and below one,
    and a row for a symbol the table does not have. *)
Definition table_x1_x4 : symtab :=
  [("x1", 0%nat); ("x2", 1%nat); ("x3", 2%nat); ("x4", 3%nat)].

Definition sol_x1_x4 : string :=
  unlines ["Model status"; "Optimal"; ""; "# Primal solution values";
           "Feasible"; "Objective 1.5"; "# Columns 4"; "x1 0.0";
           "x2 -12.3456789123"; "x3 31415.9265358979";
           "x4 0.000123456789123"; "c9 7.0"].

(** A table with an assigned variable, a component that is no variable,
    and a variable without a value. *)
Definition table_mixed : symtab :=
  [("x1", 0%nat); ("c1", 1%nat); ("x2", 2%nat)].

Definition heap_mixed : heap DecFloat.t :=
  fun o =>
    match o with
    | 0%nat => {| is_variable_type := true;
                  value := Some (DecFloat.lit 123456789 (-9)) |}
    | 1%nat => {| is_variable_type := false; value := None |}
    | _ => {| is_variable_type := true; value := None |}
    end.

End Sample.

(* ------------------------------------------------------------------ *)
(** ** Dictionaries

    A Python [dict], and the keyword arguments [**options] of a call, keep
    their keys in insertion order; assigning to a key that is present
    replaces the value where it stands. *)

Module PyDict.

Section Dict.

Context {V : Type}.

Definition dict : Type := list (string * V).

(** [d[k] = v] *)
Fixpoint setitem (d : dict) (k : string) (v : V) : dict :=
  match d with
  | [] => [(k, v)]
  | (k', v') :: d' =>
      if String.eqb k' k then (k', v) :: d'
      else (k', v') :: setitem d' k v
  end.

(** [d.get(k)] *)
Fixpoint get (d : dict) (k : string) : option V :=
  match d with
  | [] => None
  | (k', v') :: d' => if String.eqb k' k then Some v' else get d' k
  end.

(** [list(d.keys())] *)
Definition keys (d : dict) : list string := map fst d.

(** [k in d] *)
Definition mem (k : string) (ks : list string) : bool :=
  existsb (String.eqb k) ks.

(** [d.update(kwargs)], which is also what [dict.__init__] with keyword
    arguments does to a dict that already has entries. *)
Definition update (d kwargs : dict) : dict :=
  fold_left (fun d kv => setitem d (fst kv) (snd kv)) kwargs d.

End Dict.

Arguments dict V : clear implicits.

End PyDict.

(* ------------------------------------------------------------------ *)
(** ** [highsfiles.py]

    Creating the [./tmp] folder and removing files are left to the file
    system; what is modelled is the state of the objects and the text they
    write. *)

Module HiGHSFiles.

Import PyDict.

(** [HiGHSBaseFile.tmp] *)
Definition tmp : string := "./tmp".

(** *** [HiGHSOptions] *)

Section Options.

Context {V : Type}.

(** What an f-string prints for an option value. *)
Variable fmt_value : V -> string.

(** [HiGHSOptions.filename] *)
Definition options_filename : string := tmp ++ "/options.txt".

(** [parse_options]: one [__setitem__] per keyword argument. *)
Definition parse_options (self options : dict V) : dict V :=
  fold_left (fun self kv => setitem self (fst kv) (snd kv)) options self.

(** The text [set_options] writes to the options file. *)
Definition write_options (self : dict V) : string :=
  fold_left
    (fun file kv => write file (fst kv ++ " = " ++ fmt_value (snd kv) ++ nl))
    self "".

(** [set_options]: the dict afterwards and the text of the file. *)
Definition set_options (self options : dict V) : dict V * string :=
  let self := parse_options self options in
  (self, write_options self).

(** [reset_options]: [self.__init__] with the options is [dict.__init__]
    on the dict itself, then [set_options]. *)
Definition reset_options (self options : dict V) : dict V * string :=
  let self := update self options in
  set_options self options.

End Options.

(** *** [HiGHSMainFile] and its subclasses *)

Record HiGHSMainFile : Type := {
  temporary : bool;
  filename : string
}.

(** [s.replace(".", "")] *)
Fixpoint remove_dots (s : string) : string :=
  match s with
  | "" => ""
  | String c s' =>
      if Ascii.eqb c "." then remove_dots s' else String c (remove_dots s')
  end.

(** [HiGHSMainFile.parse_file]; [file] and [suffix] are a string or
    [None], and [if file:] holds of a non-empty string. *)
Definition parse_file (_parse_from_suffix : string -> string)
    (self : HiGHSMainFile) (file suffix : option string) : HiGHSMainFile :=
  match file with
  | Some (String _ _ as file) => {| temporary := false; filename := file |}
  | _ =>
      match suffix with
      | Some (String _ _ as suffix) =>
          let suffix := remove_dots suffix in
          {| temporary := temporary self;
             filename := _parse_from_suffix suffix |}
      | _ => self
      end
  end.

(** The class attributes and [_parse_from_suffix] of each kind of file. *)
Definition ModelFileMPS : HiGHSMainFile :=
  {| temporary := true; filename := tmp ++ "/model.mps" |}.
Definition ModelFileMPS_from_suffix (suffix : string) : string :=
  tmp ++ "/model" ++ suffix ++ ".mps".

Definition ModelFileLP : HiGHSMainFile :=
  {| temporary := true; filename := tmp ++ "/model.lp" |}.
Definition ModelFileLP_from_suffix (suffix : string) : string :=
  tmp ++ "/model" ++ suffix ++ ".lp".

Definition SolFile : HiGHSMainFile :=
  {| temporary := true; filename := tmp ++ "/solution.sol" |}.
Definition SolFile_from_suffix (suffix : string) : string :=
  tmp ++ "/solution" ++ suffix ++ ".sol".

Definition WarmstartFile : HiGHSMainFile :=
  {| temporary := true; filename := tmp ++ "/warmstart.sol" |}.
Definition WarmstartFile_from_suffix (suffix : string) : string :=
  tmp ++ "/warmstart" ++ suffix ++ ".sol".

(** [LogFile]: its own [parse_file] looks at [file] only and leaves
    [temporary] alone. *)
Definition LogFile : HiGHSMainFile :=
  {| temporary := true; filename := "HiGHS.log" |}.

Definition LogFile_parse_file (self : HiGHSMainFile)
    (file suffix : option string) : HiGHSMainFile :=
  match file with
  | Some (String _ _ as file) =>
      {| temporary := temporary self; filename := file |}
  | _ => self
  end.

(** The classes of file object, for the methods that depend on the
    class. *)
Inductive file_class : Type :=
| ClsModelFileMPS
| ClsModelFileLP
| ClsSolFile
| ClsWarmstartFile
| ClsLogFile.

(** [self.parse_file(file, suffix)] as the class of [self] resolves it. *)
Definition parse_file_of (cls : file_class) (self : HiGHSMainFile)
    (file suffix : option string) : HiGHSMainFile :=
  match cls with
  | ClsModelFileMPS => parse_file ModelFileMPS_from_suffix self file suffix
  | ClsModelFileLP => parse_file ModelFileLP_from_suffix self file suffix
  | ClsSolFile => parse_file SolFile_from_suffix self file suffix
  | ClsWarmstartFile => parse_file WarmstartFile_from_suffix self file suffix
  | ClsLogFile => LogFile_parse_file self file suffix
  end.

(** The path [self.delete_file()] hands to [os.remove], if any;
    [path_exists] is [os.path.exists].  [WarmstartFile] has a
    [delete_file] of its own, which asks whether the file exists and does
    not look at [temporary]; the other classes inherit that of
    [HiGHSBaseFile], which looks at [temporary] only. *)
Definition delete_file_of (cls : file_class) (path_exists : string -> bool)
    (self : HiGHSMainFile) : option string :=
  match cls with
  | ClsWarmstartFile =>
      let path := filename self in
      if path_exists path then Some (filename self) else None
  | _ => if temporary self then Some (filename self) else None
  end.

(** The classes whose [parse_file] is that of [HiGHSMainFile] and whose
    [delete_file] is that of [HiGHSBaseFile]. *)
Definition plain_class (cls : file_class) : Prop :=
  cls = ClsModelFileMPS \/ cls = ClsModelFileLP \/ cls = ClsSolFile.

(** A run of [parse_file] calls on one object. *)
Definition parse_files_of (cls : file_class) (self : HiGHSMainFile)
    (calls : list (option string * option string)) : HiGHSMainFile :=
  fold_left (fun self c => parse_file_of cls self (fst c) (snd c)) calls self.

End HiGHSFiles.

(* ------------------------------------------------------------------ *)
(** ** Option handling of the solver object *)

Section SolverOptions.

Import PyDict.

Context {F : Type} {FO : FloatOps F}.

(** [HiGHS.cmd_keys] *)
Definition cmd_keys : list string :=
  ["time_limit"; "write_model_file"; "solution_file"].

(** [_split_options], on values of any kind. *)
Definition _split_options {V : Type} (options : dict V) : dict V * dict V :=
  fold_left
    (fun acc kv =>
       let '(cmd_options, other_options) := acc in
       if mem (fst kv) cmd_keys
       then (setitem cmd_options (fst kv) (snd kv), other_options)
       else (cmd_options, setitem other_options (fst kv) (snd kv)))
    options ([], []).

(** [value is not None] *)
Definition is_not_None (v : pyval F) : bool :=
  match v with
  | PyNone => false
  | _ => true
  end.

(** [_parse_cmd_options]: [self] is the attributes of the solver object,
    [self.__setattr__(key, value)] an assignment in them. *)
Definition _parse_cmd_options (self options : dict (pyval F))
    : dict (pyval F) :=
  fold_left
    (fun self kv =>
       if is_not_None (snd kv) then setitem self (fst kv) (snd kv) else self)
    options self.

(** [HiGHS.parse_options]: the attributes and the options dict
    afterwards. *)
Definition HiGHS_parse_options (self : dict (pyval F))
    (self_options : dict (pyval F)) (options : dict (pyval F))
    : dict (pyval F) * dict (pyval F) :=
  let '(cmd_options, other_options) := _split_options options in
  let self := _parse_cmd_options self cmd_options in
  (self, HiGHSFiles.parse_options self_options other_options).

(** The loop of [_write_symbol_map] over the items of the model's symbol
    map: [all_symbols[symbol] = obj]. *)
Definition _write_symbol_map (bySymbol : list (string * oid)) : symtab :=
  fold_left
    (fun all_symbols kv => setitem all_symbols (fst kv) (snd kv))
    bySymbol [].

End SolverOptions.

(* ------------------------------------------------------------------ *)
(** * Properties *)

Local Open Scope string_scope.

(** ** Strings *)

Module PyStrFacts.

Lemma append_nil_r (s : string) : s ++ "" = s.
Proof. induction s as [|c s IH]; simpl; [reflexivity | now rewrite IH]. Qed.

Lemma append_assoc (a b c : string) : (a ++ b) ++ c = a ++ b ++ c.
Proof. induction a as [|x a IH]; simpl; [reflexivity | now rewrite IH]. Qed.

Lemma startswith_spec (p s : string) :
  startswith p s = true <-> exists r, s = p ++ r.
Proof.
  revert s; induction p as [|a p IH]; intros s.
  - simpl. split; [intros _; now exists s | reflexivity].
  - destruct s as [|b s]; simpl.
    + split; [discriminate | intros [r Hr]; discriminate].
    + rewrite andb_true_iff, Ascii.eqb_eq, IH. split.
      * intros [-> [r ->]]. now exists r.
      * intros [r Hr]. injection Hr as -> ->. split; [reflexivity | now exists r].
Qed.

Lemma str_in_spec (sub s : string) :
  str_in sub s = true <-> exists l r, s = l ++ sub ++ r.
Proof.
  induction s as [|c s IH].
  - simpl. rewrite startswith_spec. split.
    + intros [r Hr]. now exists "", r.
    + intros [l [r H]]. destruct l; [now exists r | discriminate].
  - change (str_in sub (String c s))
      with (startswith sub (String c s) || str_in sub s).
    rewrite orb_true_iff, startswith_spec, IH. split.
    + intros [[r Hr] | [l [r Hr]]].
      * now exists "", r.
      * exists (String c l), r. simpl. now rewrite Hr.
    + intros [l [r H]]. destruct l as [|c' l].
      * left. now exists r.
      * right. simpl in H. injection H as _ ->. now exists l, r.
Qed.

Lemma endswith_spec (s suf : string) :
  endswith s suf = true <-> exists l, s = l ++ suf.
Proof.
  split.
  - induction s as [|c s IH]; cbn [endswith].
    + destruct (String.eqb_spec "" suf) as [E|E]; intros H; [|discriminate H].
      exists "". now rewrite <- E.
    + destruct (String.eqb_spec (String c s) suf) as [E|_]; intros H.
      * exists "". now rewrite <- E.
      * destruct (IH H) as [l ->]. now exists (String c l).
  - intros [l ->]. induction l as [|c l IH].
    + destruct suf; cbn [append endswith]; now rewrite String.eqb_refl.
    + change (String c l ++ suf) with (String c (l ++ suf)).
      cbn [endswith]. rewrite IH. now destruct (String.eqb _ suf).
Qed.

Lemma all_chars_app p a b :
  all_chars p (a ++ b) = all_chars p a && all_chars p b.
Proof.
  induction a as [|c a IH]; cbn [append all_chars]; [reflexivity|].
  now rewrite IH, andb_assoc.
Qed.

Lemma all_chars_weaken (p q : ascii -> bool) s :
  (forall c, p c = true -> q c = true) ->
  all_chars p s = true -> all_chars q s = true.
Proof.
  intros Hpq. induction s as [|c s IH]; cbn [all_chars]; [reflexivity|].
  rewrite !andb_true_iff. intros [Hc Hs]. split; [now apply Hpq | now apply IH].
Qed.

Lemma plain_no_space s :
  plain s = true -> all_chars (fun c => negb (Ascii.eqb c " ")) s = true.
Proof.
  apply all_chars_weaken. intros c H. now apply andb_true_iff in H.
Qed.

Lemma plain_no_LF s :
  plain s = true -> all_chars (fun c => negb (Ascii.eqb c LF)) s = true.
Proof.
  apply all_chars_weaken. intros c H. now apply andb_true_iff in H.
Qed.

Lemma count_char_app c a b :
  count_char c (a ++ b) = (count_char c a + count_char c b)%nat.
Proof.
  induction a as [|x a IH]; cbn [append count_char]; [reflexivity|].
  rewrite IH. lia.
Qed.

Lemma count_char_absent c s :
  all_chars (fun x => negb (Ascii.eqb x c)) s = true -> count_char c s = O.
Proof.
  induction s as [|x s IH]; cbn [all_chars count_char]; [reflexivity|].
  rewrite andb_true_iff, negb_true_iff. intros [-> Hs]. now rewrite IH.
Qed.

(** A substring has no more occurrences of a character than the string. *)
Lemma str_in_count c sub s :
  str_in sub s = true -> (count_char c sub <= count_char c s)%nat.
Proof.
  intros H. apply str_in_spec in H as [l [r ->]].
  rewrite !count_char_app. lia.
Qed.

(** [readlines] cuts after each terminator. *)
Lemma readlines_line l rest :
  all_chars (fun c => negb (Ascii.eqb c LF)) l = true ->
  readlines (l ++ nl ++ rest) = (l ++ nl) :: readlines rest.
Proof.
  induction l as [|c l IH]; cbn [all_chars append]; intros H.
  - reflexivity.
  - apply andb_true_iff in H as [Hc Hl]. apply negb_true_iff in Hc.
    cbn [readlines]. rewrite Hc, (IH Hl). reflexivity.
Qed.

Lemma readlines_unlines ls :
  Forall (fun l => all_chars (fun c => negb (Ascii.eqb c LF)) l = true) ls ->
  readlines (unlines ls) = map (fun l => l ++ nl) ls.
Proof.
  induction 1 as [|l ls Hl _ IH]; cbn [unlines map]; [reflexivity|].
  now rewrite readlines_line, IH.
Qed.

(** [split] cuts at the first blank. *)
Lemma split1_at_blank key r :
  all_chars (fun c => negb (Ascii.eqb c " ")) key = true ->
  split1 (key ++ String " " r) = [key; r].
Proof.
  induction key as [|c key IH]; cbn [all_chars append]; intros H.
  - reflexivity.
  - apply andb_true_iff in H as [Hc Hk]. apply negb_true_iff in Hc.
    cbn [split1]. now rewrite Hc, (IH Hk).
Qed.

(** The first piece of a split has no blank in it. *)
Lemma split1_head_no_blank s key :
  nth_error (split1 s) 0 = Some key ->
  all_chars (fun c => negb (Ascii.eqb c " ")) key = true.
Proof.
  revert key. induction s as [|c s IH]; intros key; cbn [split1].
  - intros H. now inversion H.
  - destruct (Ascii.eqb c " ") eqn:Hc.
    + intros H. now inversion H.
    + destruct (split1 s) as [|h t].
      * intros H. inversion H. cbn. now rewrite Hc.
      * intros H. inversion H. cbn [all_chars]. rewrite Hc.
        now rewrite (IH h eq_refl).
Qed.

(** Decimal numerals are made of digits. *)
Lemma string_of_uint_digits d :
  all_chars is_digit (NilEmpty.string_of_uint d) = true.
Proof. induction d; cbn [NilEmpty.string_of_uint all_chars]; auto. Qed.

Lemma str_nat_digits n : all_chars is_digit (str_nat n) = true.
Proof.
  unfold str_nat, NilZero.string_of_uint.
  destruct (Nat.to_uint n) eqn:E; try reflexivity;
    rewrite <- E; apply string_of_uint_digits.
Qed.


End PyStrFacts.
Import PyStrFacts.

(** ** The completion check *)

(** C4: the check reports ready exactly when the text contains the marker
    and ends with a line terminator; so of a file written in two appends,
    the first of which leaves it without marker or without final newline
    and the second of which completes it, the check says not ready after
    the first and ready after the second. *)
Theorem check_complete_sol_ready_iff :
  (forall file_txt,
      _check_complete_sol file_txt = true <->
      contains basis_marker file_txt /\ ends_with_newline file_txt)
  /\
  (forall append1 append2,
      ~ (contains basis_marker append1 /\ ends_with_newline append1) ->
      contains basis_marker (append1 ++ append2) ->
      ends_with_newline (append1 ++ append2) ->
      _check_complete_sol append1 = false /\
      _check_complete_sol (append1 ++ append2) = true).
Proof.
  assert (Hiff : forall file_txt,
             _check_complete_sol file_txt = true <->
             contains basis_marker file_txt /\ ends_with_newline file_txt).
  { intros file_txt. unfold _check_complete_sol, contains, ends_with_newline.
    now rewrite andb_true_iff, str_in_spec, endswith_spec. }
  split; [exact Hiff|].
  intros a1 a2 Hnot Hc He. split.
  - destruct (_check_complete_sol a1) eqn:E; [|reflexivity].
    exfalso. apply Hnot. now apply Hiff.
  - apply Hiff. now split.
Qed.

Lemma check_complete_sol_ready_iff_witness :
  let append1 := "x1 1.5" ++ nl ++ "# Basis" ++ nl ++ "HiGHS v1" in
  let append2 := nl in
  _check_complete_sol append1 = false /\
  _check_complete_sol (append1 ++ append2) = true.
Proof.
  intros append1 append2.
  apply (proj2 check_complete_sol_ready_iff append1 append2).
  - intros [_ H]. apply endswith_spec in H. vm_compute in H. discriminate.
  - apply str_in_spec. vm_compute. reflexivity.
  - apply endswith_spec. vm_compute. reflexivity.
Defined.

(** ** The decoder *)

Section DecoderFacts.

Context {F : Type} {FO : FloatOps F}.

Implicit Types (st : locals F) (hp : heap F) (all_symbols : symtab).

(** *** The [while] loop *)

(** Nothing in the body changes the condition when the line lacks the
    marker: the loop uses up any budget. *)
Lemma while_status_spin fuel lines j line st :
  status st = None -> (j <= 10)%nat -> str_in "Model status" line = false ->
  while_status fuel lines j line st = OutOfFuel.
Proof.
  intros Hs Hj Hm. induction fuel as [|fuel IH]; [reflexivity|].
  cbn [while_status]. rewrite Hs, Hm. cbn [is_None andb].
  apply Nat.leb_le in Hj. now rewrite Hj.
Qed.

(** Once the condition is false the loop is left at its first test. *)
Lemma while_status_skip fuel lines j line st :
  is_None (status st) && (j <=? 10)%nat = false ->
  while_status (S fuel) lines j line st = Normal st.
Proof. intros H. cbn [while_status]. now rewrite H. Qed.

(** Two tests of the condition are all a run that leaves the loop makes,
    so a larger budget changes nothing. *)
Lemma while_status_fuel fuel lines j line st :
  (2 <= fuel)%nat ->
  while_status fuel lines j line st = while_status 2 lines j line st.
Proof.
  intros Hf. destruct fuel as [|[|fuel]]; [lia | lia |].
  destruct (is_None (status st) && (j <=? 10)%nat) eqn:Hc.
  - destruct (str_in "Model status" line) eqn:Hm.
    + cbn [while_status]. rewrite Hc, Hm.
      destruct (getitem lines (j + 1)) as [l| |]; reflexivity.
    + apply andb_true_iff in Hc as [Hs Hj]. apply Nat.leb_le in Hj.
      destruct (status st) eqn:Es; [discriminate|].
      now rewrite !while_status_spin.
  - now rewrite !while_status_skip.
Qed.

Lemma for_lines_fuel fuel R P all_symbols lines j rest st hp :
  (2 <= fuel)%nat ->
  for_lines fuel R P all_symbols lines j rest st hp
  = for_lines 2 R P all_symbols lines j rest st hp.
Proof.
  intros Hf. revert j st hp.
  induction rest as [|line rest IH]; intros j st hp; [reflexivity|].
  cbn [for_lines]. rewrite (while_status_fuel fuel) by exact Hf.
  destruct (while_status 2 lines j line st) as [st1| |]; try reflexivity.
  destruct (else_clause R P all_symbols lines j line st1 hp) as [hp' [st2| |]];
    try reflexivity.
  apply IH.
Qed.

(** The budget only matters below two: a method call is [fuel := 2]. *)
Lemma read_values_from_sol_fuel fuel R P all_symbols file_txt hp :
  (2 <= fuel)%nat ->
  _read_values_from_sol fuel R P all_symbols file_txt hp
  = _read_values_from_sol 2 R P all_symbols file_txt hp.
Proof. intros Hf. unfold _read_values_from_sol. now apply for_lines_fuel. Qed.

Lemma readlines_nonempty file_txt :
  file_txt <> "" -> readlines file_txt <> [].
Proof.
  destruct file_txt as [|c txt]; [congruence|]. intros _.
  cbn [readlines]. destruct (Ascii.eqb c LF); [discriminate|].
  destruct (readlines txt); discriminate.
Qed.

(** C9: on a non-empty file whose first line lacks ["Model status"] the
    decoder neither returns nor raises: whatever the budget, the [while]
    loop of the first iteration exhausts it. *)
Theorem read_values_from_sol_hangs fuel R P all_symbols file_txt hp :
  file_txt <> "" ->
  str_in "Model status" (hd "" (readlines file_txt)) = false ->
  _read_values_from_sol fuel R P all_symbols file_txt hp = (hp, OutOfFuel).
Proof.
  intros Hne Hm. unfold _read_values_from_sol.
  apply readlines_nonempty in Hne.
  destruct (readlines file_txt) as [|line rest] eqn:E; [congruence|].
  cbn [hd] in Hm. cbn [for_lines].
  rewrite while_status_spin; [reflexivity | reflexivity | lia | exact Hm].
Qed.

(** *** Indexing and splitting *)

Lemma getitem_Normal {A : Type} (l : list A) i a :
  getitem l i = Normal a <-> nth_error l i = Some a.
Proof.
  unfold getitem. destruct (nth_error l i); split; intros H;
    try discriminate; now inversion H.
Qed.

Lemma getitem_not_SystemError {A : Type} (l : list A) i msg :
  getitem l i <> Raise (SystemError msg).
Proof. unfold getitem. destruct (nth_error l i); discriminate. Qed.

(** [split] with [maxsplit=1] gives one or two pieces, never none. *)
Lemma split1_cases s :
  (exists a, split1 s = [a]) \/ (exists a b, split1 s = [a; b]).
Proof.
  induction s as [|c s IH]; cbn [split1].
  - left. now exists "".
  - destruct (Ascii.eqb c " ").
    + right. now exists "", s.
    + destruct IH as [[a ->] | [a [b ->]]].
      * left. now exists (String c a).
      * right. now exists (String c a), b.
Qed.

Lemma split1_length_pos s : (0 <? List.length (split1 s))%nat = true.
Proof. destruct (split1_cases s) as [[a ->] | [a [b ->]]]; reflexivity. Qed.

Lemma getitem_last_split1 s : getitem_last (split1 s) = Normal (last (split1 s) "").
Proof. destruct (split1_cases s) as [[a ->] | [a [b ->]]]; reflexivity. Qed.

(** *** One iteration: the [else] clause *)

(** The decoder's post-processing is the specification's [normalize]. *)
Lemma truncate_round_normalize (v : F) R P :
  truncate (py_round v R) P = normalize v R P.
Proof. reflexivity. Qed.

Lemma truncate_not_SystemError (x : F) P msg :
  truncate x P <> Raise (SystemError msg).
Proof.
  unfold truncate, bind.
  destruct (floor_log10 _); cbn [floor_outcome]; discriminate.
Qed.

(** What the clause does on the marker line. *)
Lemma else_clause_marker R P all_symbols lines j line st hp :
  str_in "# Primal solution values" line = true ->
  else_clause R P all_symbols lines j line st hp
  = (hp,
     l1 <- getitem lines (j + 1) ;;
     l2 <- getitem lines (j + 2) ;;
     Normal {| status := status st;
               primal_solutions := Some (rstrip_nl l1);
               objective := match py_float (objective_token l2) with
                            | Some v => Some v
                            | None => objective st
                            end |}).
Proof.
  intros Hm. unfold else_clause. rewrite Hm. f_equal.
  destruct (getitem lines (j + 1)) as [l1| |]; cbn [bind]; try reflexivity.
  destruct (getitem lines (j + 2)) as [l2| |]; cbn [bind]; try reflexivity.
  rewrite getitem_last_split1. cbn [bind]. unfold objective_token.
  now destruct (py_float _).
Qed.

(** What the clause does on a row whose first piece is a variable's
    symbol and whose second piece reads as a float. *)
Lemma else_clause_row R P all_symbols lines j line st hp key txt o V :
  str_in "# Primal solution values" line = false ->
  split1 line = [key; txt] ->
  lookup all_symbols key = Some o ->
  is_variable_type (hp o) = true ->
  py_float txt = Some V ->
  else_clause R P all_symbols lines j line st hp
  = match normalize V R P with
    | Normal v => (set_value hp o v, Normal st)
    | Raise e => (hp, Raise e)
    | OutOfFuel => (hp, OutOfFuel)
    end.
Proof.
  intros Hm Hs Hl Hv Hf. unfold else_clause.
  rewrite Hm, Hs. cbn [getitem nth_error List.length Nat.ltb Nat.leb bind].
  rewrite Hl, Hv. cbn [bind]. rewrite Hf.
  now rewrite truncate_round_normalize.
Qed.

(** What the clause does on a row whose first piece is no key of the
    table. *)
Lemma else_clause_unknown R P all_symbols lines j line st hp :
  str_in "# Primal solution values" line = false ->
  (forall key, nth_error (split1 line) 0 = Some key ->
               lookup all_symbols key = None) ->
  else_clause R P all_symbols lines j line st hp = (hp, Normal st).
Proof.
  intros Hm Hk. unfold else_clause. rewrite Hm. cbv zeta.
  destruct (split1_cases line) as [[a E] | [a [b E]]]; rewrite E in *;
    cbn [getitem nth_error]; now rewrite (Hk a eq_refl).
Qed.

(** Every run of the clause either leaves the heap alone or assigns the
    normalised value to the variable the row's first piece denotes. *)
Lemma else_clause_inv R P all_symbols lines j line st hp hp' r :
  else_clause R P all_symbols lines j line st hp = (hp', r) ->
  hp' = hp \/
  exists key txt o V v,
    str_in "# Primal solution values" line = false /\
    nth_error (split1 line) 0 = Some key /\
    nth_error (split1 line) 1 = Some txt /\
    lookup all_symbols key = Some o /\
    is_variable_type (hp o) = true /\
    py_float txt = Some V /\
    normalize V R P = Normal v /\
    hp' = set_value hp o v /\ r = Normal st.
Proof.
  unfold else_clause.
  destruct (str_in "# Primal solution values" line) eqn:Hm.
  { intros H. inversion H. now left. }
  cbv zeta. rewrite split1_length_pos.
  destruct (getitem (split1 line) 0) as [key| |] eqn:Hk;
    try (intros H; inversion H; now left).
  destruct (lookup all_symbols key) as [o|] eqn:Hl;
    try (intros H; inversion H; now left).
  destruct (is_variable_type (hp o)) eqn:Hv;
    try (intros H; inversion H; now left).
  destruct (getitem (split1 line) 1) as [txt| |] eqn:Ht; cbn [bind];
    try (intros H; inversion H; now left).
  destruct (py_float txt) as [V|] eqn:Hf;
    try (intros H; inversion H; now left).
  rewrite truncate_round_normalize.
  destruct (normalize V R P) as [v| |] eqn:Hn;
    try (intros H; inversion H; now left).
  intros H. inversion H. right.
  exists key, txt, o, V, v. apply getitem_Normal in Hk, Ht.
  repeat split; assumption.
Qed.

Lemma set_value_flag hp o v o' :
  is_variable_type (set_value hp o v o') = is_variable_type (hp o').
Proof. unfold set_value. now destruct (Nat.eqb o' o). Qed.

Lemma set_value_same hp o v : value (set_value hp o v o) = Some v.
Proof. unfold set_value. now rewrite Nat.eqb_refl. Qed.

Lemma set_value_other hp o v o' : o' <> o -> set_value hp o v o' = hp o'.
Proof.
  intros H. unfold set_value. apply Nat.eqb_neq in H. now rewrite H.
Qed.

Lemma else_clause_flag R P all_symbols lines j line st hp hp' r o :
  else_clause R P all_symbols lines j line st hp = (hp', r) ->
  is_variable_type (hp' o) = is_variable_type (hp o).
Proof.
  intros H. apply else_clause_inv in H as [-> | H]; [reflexivity|].
  destruct H as (key & txt & o1 & V & v & _ & _ & _ & _ & _ & _ & _ & -> & _).
  apply set_value_flag.
Qed.

(** The [raise SystemError] of the clause is dead code: its guard
    [len(splt) > 0] holds of every split. *)
Lemma else_clause_not_SystemError R P all_symbols lines j line st hp hp' msg :
  else_clause R P all_symbols lines j line st hp <> (hp', Raise (SystemError msg)).
Proof.
  unfold else_clause.
  destruct (str_in "# Primal solution values" line).
  - unfold bind.
    destruct (getitem lines (j + 1)) as [l1|e|] eqn:E1; try congruence.
    + destruct (getitem lines (j + 2)) as [l2|e|] eqn:E2; try congruence.
      * rewrite getitem_last_split1. destruct (py_float _); congruence.
      * intros H. inversion H. subst e.
        now apply getitem_not_SystemError in E2.
    + intros H. inversion H. subst e.
      now apply getitem_not_SystemError in E1.
  - cbv zeta. rewrite split1_length_pos.
    destruct (getitem (split1 line) 0) as [key|e|] eqn:Hk; try congruence.
    + destruct (lookup all_symbols key) as [o|]; try congruence.
      destruct (is_variable_type (hp o)); try congruence.
      destruct (getitem (split1 line) 1) as [txt|e|] eqn:Ht; cbn [bind];
        try congruence.
      * destruct (py_float txt) as [V|]; try congruence.
        destruct (truncate (py_round V R) P) as [v|e|] eqn:Et; try congruence.
        intros H. inversion H. subst e.
        now apply truncate_not_SystemError in Et.
      * intros H. inversion H. subst e.
        now apply getitem_not_SystemError in Ht.
    + intros H. inversion H. subst e.
      now apply getitem_not_SystemError in Hk.
Qed.

(** *** The [for] loop *)

Lemma while_status_keeps fuel lines j line st st1 :
  while_status fuel lines j line st = Normal st1 ->
  primal_solutions st1 = primal_solutions st /\ objective st1 = objective st.
Proof.
  revert st. induction fuel as [|fuel IH]; intros st; cbn [while_status];
    [discriminate|].
  destruct (is_None (status st) && (j <=? 10)%nat).
  - destruct (str_in "Model status" line).
    + destruct (getitem lines (j + 1)) as [l| |]; cbn [bind]; try discriminate.
      intros H. now apply IH in H.
    + apply IH.
  - intros H. inversion H. now split.
Qed.

Lemma while_status_not_SystemError fuel lines j line st msg :
  while_status fuel lines j line st <> Raise (SystemError msg).
Proof.
  revert st. induction fuel as [|fuel IH]; intros st; cbn [while_status];
    [discriminate|].
  destruct (is_None (status st) && (j <=? 10)%nat); [|discriminate].
  destruct (str_in "Model status" line); [|apply IH].
  destruct (getitem lines (j + 1)) as [l|e|] eqn:E; cbn [bind];
    [apply IH | | discriminate].
  intros H. inversion H. subst e. now apply getitem_not_SystemError in E.
Qed.

(** A relation between heaps that every run of the [else] clause
    establishes, and that is reflexive and transitive, holds between the
    heap before the loop and the heap after it, however the loop ends. *)
Lemma for_lines_heap_rel (Q : heap F -> heap F -> Prop)
    fuel R P all_symbols lines :
  (forall hp, Q hp hp) ->
  (forall a b c, Q a b -> Q b c -> Q a c) ->
  forall rest,
    (forall line j st hp hp1 r,
        In line rest ->
        else_clause R P all_symbols lines j line st hp = (hp1, r) ->
        Q hp hp1) ->
    forall j st hp hp' r,
      for_lines fuel R P all_symbols lines j rest st hp = (hp', r) ->
      Q hp hp'.
Proof.
  intros Hrefl Htrans. induction rest as [|line rest IH];
    intros Hstep j st hp hp' r; cbn [for_lines].
  - intros H. inversion H. apply Hrefl.
  - destruct (while_status fuel lines j line st) as [st1| |];
      try (intros H; inversion H; apply Hrefl).
    destruct (else_clause R P all_symbols lines j line st1 hp)
      as [hp1 r1] eqn:E.
    assert (Q hp hp1) as Q1 by (eapply Hstep; [now left | exact E]).
    destruct r1 as [st2| |]; try (intros H; inversion H; subst; exact Q1).
    intros H. eapply Htrans; [exact Q1|].
    eapply IH; [|exact H]. intros. eapply Hstep; [right|]; eassumption.
Qed.

(** [is_variable_type] of a component never changes. *)
Lemma for_lines_flag fuel R P all_symbols lines j rest st hp hp' r :
  for_lines fuel R P all_symbols lines j rest st hp = (hp', r) ->
  forall o, is_variable_type (hp' o) = is_variable_type (hp o).
Proof.
  apply (for_lines_heap_rel
           (fun a b => forall o, is_variable_type (b o) = is_variable_type (a o))).
  - reflexivity.
  - intros a b c Hab Hbc o. now rewrite Hbc.
  - intros line j0 st0 hp0 hp1 r0 _ E o. eapply else_clause_flag, E.
Qed.


(** Whatever the loop changes is a variable that the first piece of some
    row denotes through the table. *)
Lemma for_lines_changes fuel R P all_symbols lines j rest st hp hp' r :
  for_lines fuel R P all_symbols lines j rest st hp = (hp', r) ->
  forall o,
    hp' o = hp o \/
    exists line key,
      In line rest /\
      nth_error (split1 line) 0 = Some key /\
      lookup all_symbols key = Some o /\
      is_variable_type (hp o) = true.
Proof.
  intros H.
  cut ((forall o, is_variable_type (hp' o) = is_variable_type (hp o)) /\
       forall o,
         hp' o = hp o \/
         exists line key,
           In line rest /\
           nth_error (split1 line) 0 = Some key /\
           lookup all_symbols key = Some o /\
           is_variable_type (hp o) = true); [now intros [_ C]|].
  revert H.
  apply (for_lines_heap_rel
           (fun a b =>
              (forall o, is_variable_type (b o) = is_variable_type (a o)) /\
              forall o,
                b o = a o \/
                exists line key,
                  In line rest /\
                  nth_error (split1 line) 0 = Some key /\
                  lookup all_symbols key = Some o /\
                  is_variable_type (a o) = true)).
  - intros a. split; [reflexivity | now left].
  - intros a b c [Fab Cab] [Fbc Cbc]. split.
    + intros o. now rewrite Fbc.
    + intros o. destruct (Cbc o) as [E | (line & key & Hin & Hk & Hl & Hv)].
      * rewrite E. apply Cab.
      * right. exists line, key. rewrite Fab in Hv. now repeat split.
  - intros line j0 st0 hp0 hp1 r0 Hin E. split.
    + intros o. eapply else_clause_flag, E.
    + intros o. apply else_clause_inv in E as [-> | E]; [now left|].
      destruct E as (key & txt & o1 & V & v & _ & Hk & _ & Hl & Hv & _ & _ & -> & _).
      destruct (Nat.eq_dec o o1) as [-> | Hne].
      * right. exists line, key. now repeat split.
      * left. now apply set_value_other.
Qed.

(** The loop never ends in the structural decode error. *)
Lemma for_lines_not_SystemError fuel R P all_symbols lines j rest st hp hp' msg :
  for_lines fuel R P all_symbols lines j rest st hp
  <> (hp', Raise (SystemError msg)).
Proof.
  revert j st hp. induction rest as [|line rest IH]; intros j st hp;
    cbn [for_lines]; [congruence|].
  destruct (while_status fuel lines j line st) as [st1|e|] eqn:W;
    [| |congruence].
  - destruct (else_clause R P all_symbols lines j line st1 hp)
      as [hp1 [st2|e|]] eqn:E; [apply IH | | congruence].
    intros H. inversion H. subst.
    now apply else_clause_not_SystemError in E.
  - intros H. inversion H. subst e.
    now apply while_status_not_SystemError in W.
Qed.


(** Rows do not touch the locals. *)
Lemma else_clause_row_locals R P all_symbols lines j line st hp hp1 st2 :
  str_in "# Primal solution values" line = false ->
  else_clause R P all_symbols lines j line st hp = (hp1, Normal st2) ->
  st2 = st.
Proof.
  intros Hm. unfold else_clause. rewrite Hm. cbv zeta.
  destruct (getitem (split1 line) 0) as [key| |]; try congruence.
  destruct (lookup all_symbols key) as [o|]; try congruence.
  destruct (is_variable_type (hp o)); try congruence.
  destruct (0 <? List.length (split1 line))%nat; try congruence.
  destruct (bind _ _) as [v| |]; congruence.
Qed.


(** *** The method *)

(** C6: decoding attributes values to symbols of the table only.  A
    component whose value differs after the call, however the call ends,
    is a decision variable that some line's first piece denotes through
    the table; and a row whose first piece is no key of the table is
    passed over, with no assignment and no error: the loop goes on with
    the next line from the same locals and the same heap. *)
Theorem read_values_only_table_symbols fuel R P all_symbols file_txt hp :
  (forall o,
      value (fst (_read_values_from_sol fuel R P all_symbols file_txt hp) o)
      <> value (hp o) ->
      exists line key,
        In line (readlines file_txt) /\
        nth_error (split1 line) 0 = Some key /\
        lookup all_symbols key = Some o /\
        is_variable_type (hp o) = true)
  /\
  (forall lines j line rest st,
      is_None (status st) && (j <=? 10)%nat = false ->
      str_in "# Primal solution values" line = false ->
      lookup all_symbols (hd "" (split1 line)) = None ->
      for_lines (S fuel) R P all_symbols lines j (line :: rest) st hp
      = for_lines (S fuel) R P all_symbols lines (S j) rest st hp).
Proof.
  split.
  - intros o Hne.
    destruct (_read_values_from_sol fuel R P all_symbols file_txt hp)
      as [hp' r] eqn:E.
    unfold _read_values_from_sol in E.
    destruct (for_lines_changes _ _ _ _ _ _ _ _ _ _ _ E o) as [Heq | Hex].
    + cbn [fst] in Hne. now rewrite Heq in Hne.
    + exact Hex.
  - intros lines j line rest st Hc Hm Hk. cbn [for_lines].
    rewrite while_status_skip by exact Hc.
    rewrite else_clause_unknown; [reflexivity | exact Hm |].
    intros key Hkey. destruct (split1 line) as [|a l]; [discriminate|].
    cbn in Hkey, Hk. now inversion Hkey; subst.
Qed.



(** The method never raises [SystemError]: the branch that would is
    behind a guard that always holds. *)
Lemma read_values_never_SystemError fuel R P all_symbols file_txt hp hp' msg :
  _read_values_from_sol fuel R P all_symbols file_txt hp
  <> (hp', Raise (SystemError msg)).
Proof. apply for_lines_not_SystemError. Qed.

End DecoderFacts.

(** C1: a row that has no value token after a decision variable's symbol
    does not make the decoder raise [SystemError].  In a complete file the
    row ["x1\n"] is passed over, [x1] keeps no value and the call returns;
    when the file stops after the symbol, [splt[1]] raises [IndexError]. *)
Theorem missing_value_row_not_reported :
  _check_complete_sol Sample.sol_missing_value = true /\
  _read_values_from_sol 2 8 8 Sample.table_x1 Sample.sol_missing_value
    Sample.fresh_vars
  = (Sample.fresh_vars,
     Normal {| status := Some "Optimal";
               primal_solutions := Some "Feasible";
               objective := Some (DecFloat.lit 42 0) |}) /\
  _read_values_from_sol 2 8 8 Sample.table_x1 Sample.sol_missing_value_eof
    Sample.fresh_vars
  = (Sample.fresh_vars, Raise IndexError).
Proof. repeat split; vm_compute; reflexivity. Qed.

(** The end-to-end example of the specification. *)
Example read_values_sol_x1 :
  let '(hp', r) :=
    _read_values_from_sol 2 8 8 Sample.table_x1 Sample.sol_x1 Sample.fresh_vars in
  r = Normal {| status := Some "Optimal";
                primal_solutions := Some "1";
                objective := Some (DecFloat.lit 42 0) |} /\
  value (hp' 0%nat) = Some (DecFloat.lit 314159265 (-8)) /\
  normalize (DecFloat.lit 314159265 (-8)) 8 8
  = Normal (DecFloat.lit 314159265 (-8)).
Proof. vm_compute. repeat split. Qed.

(** The four boundary rows: zero, negative, magnitude at least one,
    magnitude below one; and the unknown symbol [c9] gets nothing. *)
Example read_values_sol_x1_x4 :
  let '(hp', r) :=
    _read_values_from_sol 2 8 8 Sample.table_x1_x4 Sample.sol_x1_x4
      Sample.fresh_vars in
  r = Normal {| status := Some "Optimal";
                primal_solutions := Some "Feasible";
                objective := Some (DecFloat.lit 15 (-1)) |} /\
  value (hp' 0%nat) = Some (DecFloat.lit 0 0) /\
  value (hp' 1%nat) = Some (DecFloat.lit (-123456789) (-7)) /\
  value (hp' 2%nat) = Some (DecFloat.lit 314159265 (-4)) /\
  value (hp' 3%nat) = Some (DecFloat.lit 12346 (-8)) /\
  value (hp' 4%nat) = None.
Proof. vm_compute. repeat split. Qed.

(** ** The warm-start writer *)

Section WriterFacts.

Context {F : Type} {FO : FloatOps F}.

Implicit Types (hp : heap F) (all_symbols : symtab).

Lemma n_var_length all_symbols hp :
  n_var all_symbols hp = List.length (decision_variables all_symbols hp).
Proof.
  unfold n_var, decision_variables.
  generalize (filter (fun kv => is_variable_type (hp (snd kv))) all_symbols).
  intros l. induction l as [|kv l IH]; [reflexivity|].
  cbn [map list_sum fold_right List.length]. unfold list_sum in IH.
  now rewrite IH.
Qed.

(** The loop of the writer appends the rows of the decision variables. *)
Lemma write_rows all_symbols hp file :
  fold_left
    (fun file kv =>
       let '(key, o) := kv in
       if is_variable_type (hp o) then
         match value (hp o) with
         | None => write file (key ++ " 0.0" ++ nl)
         | Some v => write file (key ++ " " ++ py_str v ++ nl)
         end
       else file)
    all_symbols file
  = file ++ unlines (map (warmstart_row hp) (decision_variables all_symbols hp)).
Proof.
  revert file. induction all_symbols as [|[key o] l IH]; intros file.
  - cbn. now rewrite append_nil_r.
  - cbn [fold_left decision_variables filter snd].
    fold (decision_variables l hp). rewrite IH.
    destruct (is_variable_type (hp o)); [|reflexivity].
    cbn [map unlines]. unfold warmstart_row at 2, row_value, write.
    cbn [fst snd].
    destruct (value (hp o)); now rewrite !append_assoc.
Qed.

Lemma write_warmstartfile_unlines all_symbols hp :
  _write_warmstartfile all_symbols hp = unlines (warmstart_lines all_symbols hp).
Proof.
  unfold _write_warmstartfile. cbv zeta. rewrite write_rows.
  rewrite n_var_length. unfold warmstart_lines, write. cbv zeta.
  cbn [List.app unlines]. unfold nl.
  repeat (rewrite !append_assoc || cbn [append]). reflexivity.
Qed.

(** C8: the text the writer produces is the seven fixed header lines, the
    last of them [# Columns <N>] with [N] the number of decision-variable
    symbols, then one row per decision-variable symbol in table order:
    the symbol, a blank, and [0.0] when the value is [None], the value as
    Python prints it otherwise. *)
Theorem write_warmstartfile_content all_symbols hp :
  _write_warmstartfile all_symbols hp
  = unlines
      (["Model status"; "Unknown"; ""; "# Primal solution values"; "Unknown";
        "Objective Unknown";
        ("# Columns " ++ str_nat (n_var all_symbols hp))%string]
         ++ map (fun kv =>
                   (fst kv ++ " " ++
                    match value (hp (snd kv)) with
                    | None => "0.0"
                    | Some v => py_str v
                    end)%string)
              (filter (fun kv => is_variable_type (hp (snd kv))) all_symbols))%list
  /\ n_var all_symbols hp
     = List.length (filter (fun kv => is_variable_type (hp (snd kv))) all_symbols).
Proof.
  split; [|apply n_var_length].
  rewrite write_warmstartfile_unlines, n_var_length. reflexivity.
Qed.

(** ** The time-limit flag *)

(** C10: a falsy [time_limit], zero included, puts no [--time_limit] flag
    on the command line: [_cmd_timelim] is empty, and the command line is
    the executable followed at once by the solution-file flag.  The flag
    appears exactly when [time_limit] is truthy. *)
Theorem cmd_timelim_falsy :
  (forall time_limit : pyval F,
      truthy time_limit = false ->
      _cmd_timelim time_limit = "" /\
      forall executable solfile rsf options_file modelfile,
        cmd_line executable time_limit solfile rsf options_file modelfile
        = executable ++ " " ++ " --solution_file " ++ solfile ++ " "
            ++ rsf ++ "--options_file " ++ options_file ++ " " ++ modelfile)
  /\ truthy (PyInt 0 : pyval F) = false
  /\ truthy (PyNone : pyval F) = false
  /\ (forall time_limit : pyval F,
         str_in "--time_limit" (_cmd_timelim time_limit) = true
         <-> truthy time_limit = true).
Proof.
  split; [|split; [reflexivity | split; [reflexivity|]]].
  - intros tl Hf. unfold cmd_line, _cmd_timelim. rewrite Hf.
    split; [reflexivity|]. intros. reflexivity.
  - intros tl. unfold _cmd_timelim. destruct (truthy tl).
    + split; [reflexivity|]. intros _. apply str_in_spec.
      now exists " ", (" " ++ fmt tl).
    + split; [intros H; vm_compute in H; discriminate | discriminate].
Qed.

End WriterFacts.

(** ** [truncate] on exact decimals *)

Module DecFloatFacts.

Import DecFloat.

Local Open Scope Z_scope.

Lemma strip0_pos fuel m e : 0 < m -> 0 < dmant (strip0 fuel m e).
Proof.
  revert m e. induction fuel as [|fuel IH]; intros m e Hm; cbn [strip0];
    [exact Hm|].
  destruct (Z.eqb_spec (m mod 10) 0) as [Hz|_]; [|exact Hm].
  apply IH. pose proof (Z.div_mod m 10 ltac:(lia)). lia.
Qed.

Lemma dnorm_pos d : 0 < dmant d -> 0 < dmant (dnorm d).
Proof.
  intros Hm. unfold dnorm.
  destruct (Z.eqb_spec (dmant d) 0) as [Hz|_]; [lia|].
  now apply strip0_pos.
Qed.

(** The argument of the logarithm: a magnitude plus a power of ten. *)
Lemma abs_plus_pow10_pos d P : 0 < dmant (dadd (dabs d) (mkdec 1 (- P))).
Proof.
  unfold dadd. apply dnorm_pos. cbn [dmant dexp dabs].
  set (e := Z.min (dexp d) (- P)).
  assert (0 < 10 ^ (dexp d - e)) by (apply Z.pow_pos_nonneg; lia).
  assert (0 < 10 ^ (- P - e)) by (apply Z.pow_pos_nonneg; lia).
  pose proof (Z.abs_nonneg (dmant d)). nia.
Qed.

(** [zlog10] is the integer logarithm. *)
Lemma ilog10_spec fuel m :
  1 <= m -> m < 2 ^ Z.of_nat fuel ->
  10 ^ ilog10 fuel m <= m < 10 ^ (ilog10 fuel m + 1) /\ 0 <= ilog10 fuel m.
Proof.
  revert m. induction fuel as [|fuel IH]; intros m H1 H2.
  - cbn in H2. lia.
  - cbn [ilog10]. destruct (Z.ltb_spec m 10) as [Hlt|Hge].
    + cbn. lia.
    + rewrite Nat2Z.inj_succ, Z.pow_succ_r in H2 by lia.
      pose proof (Z.div_mod m 10 ltac:(lia)) as Hdm.
      pose proof (Z.mod_pos_bound m 10 ltac:(lia)) as Hmod.
      destruct (IH (m / 10)) as [[Hlo Hhi] Hnn]; [lia | lia |].
      split; [|lia].
      replace (1 + ilog10 fuel (m / 10)) with (Z.succ (ilog10 fuel (m / 10)))
        by lia.
      rewrite Z.pow_succ_r by exact Hnn.
      replace (Z.succ (ilog10 fuel (m / 10)) + 1)
        with (Z.succ (ilog10 fuel (m / 10) + 1)) by lia.
      rewrite (Z.pow_succ_r 10 (ilog10 fuel (m / 10) + 1)) by lia.
      lia.
Qed.

Lemma zlog10_spec m :
  1 <= m -> 10 ^ zlog10 m <= m < 10 ^ (zlog10 m + 1).
Proof.
  intros H1. unfold zlog10. apply ilog10_spec; [exact H1|].
  rewrite Nat2Z.inj_succ, Z2Nat.id by (apply Z.log2_nonneg).
  apply Z.log2_spec. lia.
Qed.

(** *** The range *)

Lemma scaled_shift d E E' :
  E' <= E -> E <= dexp d -> scaled d E' = scaled d E * 10 ^ (E - E').
Proof.
  intros H1 H2. unfold scaled.
  replace (dexp d - E') with ((dexp d - E) + (E - E')) by lia.
  rewrite Z.pow_add_r by lia. ring.
Qed.

(** [dle] compares the mantissas at any common exponent. *)
Lemma dle_scaled a b E :
  E <= dexp a -> E <= dexp b ->
  (dle a b = true <-> scaled a E <= scaled b E).
Proof.
  intros Ha Hb. unfold dle. set (E0 := Z.min (dexp a) (dexp b)).
  rewrite Z.leb_le.
  rewrite (scaled_shift a E0 E), (scaled_shift b E0 E) by lia.
  assert (0 < 10 ^ (E0 - E)) by (apply Z.pow_pos_nonneg; lia).
  split; intros H0; nia.
Qed.

Lemma strip0_scaled fuel m e E :
  E <= e ->
  scaled (strip0 fuel m e) E = m * 10 ^ (e - E) /\
  e <= dexp (strip0 fuel m e).
Proof.
  revert m e. induction fuel as [|fuel IH]; intros m e HE; cbn [strip0].
  - unfold scaled. cbn [dmant dexp]. split; [reflexivity | lia].
  - destruct (Z.eqb_spec (m mod 10) 0) as [Hz|_].
    + destruct (IH (m / 10) (e + 1)) as [IH1 IH2]; [lia|].
      split; [|lia]. rewrite IH1.
      replace (e + 1 - E) with (Z.succ (e - E)) by lia.
      rewrite Z.pow_succ_r by lia.
      pose proof (Z.div_mod m 10 ltac:(lia)) as Hdm.
      rewrite Hz, Z.add_0_r in Hdm. rewrite Hdm at 2. ring.
    + unfold scaled. cbn [dmant dexp]. split; [reflexivity | lia].
Qed.

Lemma dnorm_scaled d E :
  E <= dexp d ->
  scaled (dnorm d) E = scaled d E /\
  (dmant d <> 0 -> dexp d <= dexp (dnorm d)).
Proof.
  intros HE. unfold dnorm.
  destruct (Z.eqb_spec (dmant d) 0) as [Hz|Hnz].
  - unfold scaled. cbn [dmant dexp]. rewrite Hz. split; [reflexivity | tauto].
  - destruct (strip0_scaled (Z.to_nat (Z.log2 (Z.abs (dmant d))))
                (dmant d) (dexp d) E HE) as [H1 H2].
    split; [exact H1 | intros _; exact H2].
Qed.

(** The mantissa of a sum is the sum of the mantissas. *)
Lemma dadd_scaled a b E :
  E <= dexp a -> E <= dexp b ->
  scaled (dadd a b) E = scaled a E + scaled b E.
Proof.
  intros Ha Hb. unfold dadd. set (e := Z.min (dexp a) (dexp b)).
  destruct (dnorm_scaled
              (mkdec (dmant a * 10 ^ (dexp a - e) + dmant b * 10 ^ (dexp b - e)) e)
              E) as [H1 _]; [cbn [dexp]; lia|].
  rewrite H1. unfold scaled at 1. cbn [dmant dexp].
  rewrite (scaled_shift a e E), (scaled_shift b e E) by lia.
  unfold scaled. ring.
Qed.

Lemma dadd_exp_pos a b :
  0 < dmant (dadd a b) -> Z.min (dexp a) (dexp b) <= dexp (dadd a b).
Proof.
  unfold dadd. set (e := Z.min (dexp a) (dexp b)).
  set (s := mkdec _ e). intros Hpos.
  destruct (dnorm_scaled s e) as [_ H2]; [cbn; lia|].
  apply H2. intros Hz. unfold dnorm in Hpos. rewrite Hz in Hpos.
  cbn in Hpos. lia.
Qed.

Lemma dabs_pos y : 0 < dmant y -> dabs y = y.
Proof.
  destruct y as [m e]. cbn [dmant]. intros H. unfold dabs. cbn [dmant dexp].
  now rewrite Z.abs_eq by lia.
Qed.

(** The closed facts about the bounds of the range. *)
Lemma range_facts :
  10 * dmant dbl_max + 1 < 10 * dmant huge /\
  dmant tiny < 10 ^ 752 /\
  10 ^ 1074 < dmant huge * 10 ^ 1075.
Proof. repeat split; apply Z.ltb_lt; vm_compute; reflexivity. Qed.

(** [10 ** (-P)] is a float other than zero up to [P = 323]. *)
Lemma pow10_neg_in_range P :
  1 <= P <= 323 -> clamp (mkdec 1 (- P)) = Fin (mkdec 1 (- P)).
Proof.
  intros HP. destruct range_facts as (_ & Ht & Hh).
  unfold clamp. change (dabs (mkdec 1 (- P))) with (mkdec 1 (- P)).
  assert (Hp : 10 ^ 752 <= 10 ^ (1075 - P) <= 10 ^ 1074)
    by (split; apply Z.pow_le_mono_r; lia).
  destruct (dle huge (mkdec 1 (- P))) eqn:E1.
  { exfalso. apply (dle_scaled _ _ (- 1075)) in E1;
      [|cbn; lia | cbn [dexp]; lia].
    unfold scaled in E1. cbn [dmant dexp huge] in E1.
    replace (0 - - 1075) with 1075 in E1 by lia.
    replace (- P - - 1075) with (1075 - P) in E1 by lia.
    change (dmant huge) with (2 ^ 1024 - 2 ^ 970) in Hh. lia. }
  destruct (dle (mkdec 1 (- P)) tiny) eqn:E2; [|reflexivity].
  exfalso. apply (dle_scaled _ _ (- 1075)) in E2;
    [|cbn [dexp]; lia | cbn; lia].
  unfold scaled in E2. cbn [dmant dexp tiny] in E2.
  replace (- P - - 1075) with (1075 - P) in E2 by lia.
  replace (- 1075 - - 1075) with 0 in E2 by lia.
  change (dmant tiny) with (5 ^ 1075) in Ht.
  rewrite Z.pow_0_r in E2. lia.
Qed.

(** The argument of the logarithm, for a value in the range and such a
    precision: neither an infinity nor zero. *)
Lemma abs_plus_pow10_in_range d P :
  in_range d = true -> 1 <= P <= 323 ->
  py_add (py_abs (Fin d)) (pow10_neg P)
  = Fin (dadd (dabs d) (mkdec 1 (- P))).
Proof.
  intros Hr HP. destruct range_facts as (Hd & Ht & _).
  change (py_add (py_abs (Fin d)) (pow10_neg P))
    with (add (Fin (dabs d)) (clamp (mkdec 1 (- P)))).
  rewrite pow10_neg_in_range by exact HP. cbn [add].
  pose proof (abs_plus_pow10_pos d P) as Hpos.
  set (y := dadd (dabs d) (mkdec 1 (- P))) in *.
  pose proof (dadd_exp_pos (dabs d) (mkdec 1 (- P)) Hpos) as Hey.
  cbn [dexp dabs] in Hey. fold y in Hey.
  set (E := Z.min (dexp d) (- 1075)).
  assert (HE : E <= dexp y) by lia.
  assert (Hsum : scaled y E = scaled (dabs d) E + 10 ^ (- P - E)).
  { unfold y. rewrite dadd_scaled by (cbn [dexp dabs]; lia).
    unfold scaled at 2. cbn [dmant dexp]. ring. }
  assert (Hk : 0 < 10 ^ (- 1075 - E)) by (apply Z.pow_pos_nonneg; lia).
  assert (Hnn : 0 <= scaled (dabs d) E).
  { unfold scaled. cbn [dmant dexp dabs].
    apply Z.mul_nonneg_nonneg; [apply Z.abs_nonneg|].
    apply Z.pow_nonneg. lia. }
  unfold clamp. rewrite (dabs_pos y Hpos).
  destruct (dle huge y) eqn:E1.
  { exfalso. apply (dle_scaled _ _ E) in E1; [|cbn; lia | exact HE].
    unfold in_range in Hr.
    apply (dle_scaled _ _ E) in Hr; [|cbn [dexp dabs]; lia | cbn; lia].
    rewrite Hsum in E1. unfold scaled in E1 at 1. unfold scaled in Hr at 2.
    cbn [dexp huge dbl_max] in E1, Hr.
    change (dmant (mkdec (2 ^ 1024 - 2 ^ 970) 0)) with (dmant huge) in E1.
    change (dmant (mkdec ((2 ^ 53 - 1) * 2 ^ 971) 0)) with (dmant dbl_max) in Hr.
    assert (Hp1 : 10 ^ (0 - E) = 10 * 10 ^ (- 1 - E)).
    { replace (0 - E) with (Z.succ (- 1 - E)) by lia.
      now rewrite Z.pow_succ_r by lia. }
    assert (Hp2 : 10 ^ (- P - E) <= 10 ^ (- 1 - E))
      by (apply Z.pow_le_mono_r; lia).
    assert (Hk1 : 0 < 10 ^ (- 1 - E)) by (apply Z.pow_pos_nonneg; lia).
    rewrite Hp1 in E1, Hr.
    generalize dependent (dmant huge). generalize dependent (dmant dbl_max).
    intros D H0 H. intros. nia. }
  destruct (dle y tiny) eqn:E2; [|reflexivity].
  exfalso. apply (dle_scaled _ _ E) in E2; [|exact HE | cbn; lia].
  rewrite Hsum in E2. unfold scaled in E2 at 2. cbn [dexp tiny] in E2.
  change (dmant (mkdec (5 ^ 1075) (- 1075))) with (dmant tiny) in E2.
  assert (Hp3 : 10 ^ (- P - E) = 10 ^ (1075 - P) * 10 ^ (- 1075 - E)).
  { rewrite <- Z.pow_add_r by lia. f_equal. lia. }
  assert (Hp4 : 10 ^ 752 <= 10 ^ (1075 - P))
    by (apply Z.pow_le_mono_r; lia).
  rewrite Hp3 in E2.
  generalize dependent (dmant tiny). generalize dependent (10 ^ 752).
  intros. nia.
Qed.




(** Printing and reading back. *)
Example repr_parse_samples :
  repr (lit 314159265 (-8)) = "3.14159265" /\
  repr (lit (-15) (-6)) = "-1.5e-05" /\
  repr (lit 1 16) = "1e+16" /\
  repr (lit 42 0) = "42.0" /\
  parse ("3.14159265" ++ nl) = Some (lit 314159265 (-8)) /\
  parse "-1.5e-05" = Some (lit (-15) (-6)) /\
  parse "1e+16" = Some (lit 1 16) /\
  parse "Unknown" = None /\
  parse "" = None.
Proof. vm_compute. repeat split. Qed.

(** Half-way cases go to the even neighbour. *)
Example round_samples :
  round (lit 123456789 (-9)) 8 = lit 12345679 (-8) /\
  round (lit 25 (-1)) 0 = lit 2 0 /\
  round (lit 35 (-1)) 0 = lit 4 0 /\
  round (lit (-25) (-1)) 0 = lit (-2) 0 /\
  round (lit 1234 0) (-2) = lit 12 2.
Proof. vm_compute. repeat split. Qed.

(** Zero, a negative number, and the non-finite values on which
    [math.floor] does raise. *)
Example truncate_samples :
  truncate (lit 0 0) 8 = Normal (lit 0 0) /\
  truncate (lit (-25) (-1)) 8 = Normal (lit (-25) (-1)) /\
  truncate (lit 123456789123 (-3)) 8 = Normal (lit 1234567891 (-1)) /\
  truncate (Inf false) 8 = Raise OverflowError /\
  truncate NaN 8 = Raise ValueError.
Proof. vm_compute. repeat split. Qed.

End DecFloatFacts.

(** ** Writing a warm start and reading it back *)

Section RoundTrip.

Context {F : Type} {FO : FloatOps F}.

Implicit Types (st : locals F) (hp : heap F) (all_symbols : symtab).

Lemma lookup_In all_symbols key o :
  lookup all_symbols key = Some o -> In (key, o) all_symbols.
Proof.
  induction all_symbols as [|[k o'] l IH]; cbn [lookup]; [discriminate|].
  destruct (String.eqb_spec k key) as [->|_].
  - intros H. inversion H. now left.
  - intros H. right. now apply IH.
Qed.

Lemma lookup_NoDup all_symbols key o :
  NoDup (map fst all_symbols) -> In (key, o) all_symbols ->
  lookup all_symbols key = Some o.
Proof.
  induction all_symbols as [|[k o'] l IH]; cbn [map fst lookup];
    intros Hnd Hin; [contradiction|].
  inversion Hnd as [|? ? Hk Hl]. subst.
  destruct Hin as [E | Hin].
  - inversion E. subst. now rewrite String.eqb_refl.
  - destruct (String.eqb_spec k key) as [->|_]; [|now apply IH].
    exfalso. apply Hk. now apply (in_map fst) in Hin.
Qed.

(** The clause passes over a line whose first piece denotes no decision
    variable. *)
Lemma else_clause_skip R P all_symbols lines j line st hp :
  str_in "# Primal solution values" line = false ->
  (forall key o,
      nth_error (split1 line) 0 = Some key ->
      lookup all_symbols key = Some o ->
      is_variable_type (hp o) = false) ->
  else_clause R P all_symbols lines j line st hp = (hp, Normal st).
Proof.
  intros Hm Hk. unfold else_clause. rewrite Hm. cbv zeta.
  destruct (getitem (split1 line) 0) as [key| |] eqn:E.
  - apply getitem_Normal in E.
    destruct (lookup all_symbols key) as [o|] eqn:El; [|reflexivity].
    now rewrite (Hk key o E El).
  - unfold getitem in E. destruct (split1_cases line) as [[a Ha] | [a [b Ha]]];
      rewrite Ha in E; discriminate.
  - unfold getitem in E. destruct (nth_error _ _); discriminate.
Qed.

Lemma for_lines_step fuel R P all_symbols lines j line rest st st1 st2 hp hp1 :
  while_status fuel lines j line st = Normal st1 ->
  else_clause R P all_symbols lines j line st1 hp = (hp1, Normal st2) ->
  for_lines fuel R P all_symbols lines j (line :: rest) st hp
  = for_lines fuel R P all_symbols lines (S j) rest st2 hp1.
Proof. intros W E. cbn [for_lines]. now rewrite W, E. Qed.

(** Neither a row nor the [# Columns] line holds the primal marker: the
    marker has three blanks, they have fewer. *)
Lemma marker_not_in_few_blanks line :
  (count_char " " line < 3)%nat ->
  str_in "# Primal solution values" line = false.
Proof.
  intros H. destruct (str_in "# Primal solution values" line) eqn:E;
    [|reflexivity].
  apply (str_in_count " ") in E. cbn in E. lia.
Qed.

Lemma row_line_shape hp key o :
  warmstart_row hp (key, o) ++ nl = key ++ String " " (row_value hp o ++ nl).
Proof.
  unfold warmstart_row. cbn [fst snd]. now rewrite append_assoc.
Qed.

Lemma marker_not_in_row hp key o :
  plain key = true -> plain (row_value hp o) = true ->
  str_in "# Primal solution values" (warmstart_row hp (key, o) ++ nl) = false.
Proof.
  intros Hk Hv. apply marker_not_in_few_blanks.
  rewrite row_line_shape.
  change (String " " (row_value hp o ++ nl))
    with (" " ++ row_value hp o ++ nl).
  rewrite !count_char_app.
  rewrite (count_char_absent " " key) by now apply plain_no_space.
  rewrite (count_char_absent " " (row_value hp o)) by now apply plain_no_space.
  cbn. lia.
Qed.

Lemma marker_not_in_columns n :
  str_in "# Primal solution values" (("# Columns " ++ str_nat n) ++ nl) = false.
Proof.
  apply marker_not_in_few_blanks. rewrite !count_char_app.
  rewrite (count_char_absent " " (str_nat n)).
  - cbn. lia.
  - apply (all_chars_weaken is_digit); [|apply str_nat_digits].
    intros c. destruct c as [[] [] [] [] [] [] [] []];
      vm_compute; intros H; congruence.
Qed.

Lemma columns_no_LF n :
  all_chars (fun c => negb (Ascii.eqb c LF)) ("# Columns " ++ str_nat n) = true.
Proof.
  rewrite all_chars_app. apply andb_true_iff. split; [reflexivity|].
  apply (all_chars_weaken is_digit); [|apply str_nat_digits].
  intros c. destruct c as [[] [] [] [] [] [] [] []];
    vm_compute; intros H; congruence.
Qed.

Variables (R P : Z) (all_symbols : symtab) (hp : heap F).

Hypothesis keys_unique : NoDup (map fst all_symbols).

Hypothesis rows_ok :
  forall key o,
    In (key, o) all_symbols -> is_variable_type (hp o) = true ->
    symbol_ok key = true /\
    plain (row_value hp o) = true /\
    exists V v,
      py_float (row_value hp o ++ nl) = Some V /\
      normalize V R P = Normal v.

(** A line whose first piece is not an acceptable symbol is passed
    over. *)
Lemma else_clause_skip_header lines j line st hp1 :
  (forall o, is_variable_type (hp1 o) = is_variable_type (hp o)) ->
  str_in "# Primal solution values" line = false ->
  symbol_ok (hd "" (split1 line)) = false ->
  else_clause R P all_symbols lines j line st hp1 = (hp1, Normal st).
Proof.
  intros Hflag Hm Hbad. apply else_clause_skip; [exact Hm|].
  intros key o Hk Hl. destruct (is_variable_type (hp1 o)) eqn:Hv; [|reflexivity].
  rewrite Hflag in Hv. apply lookup_In in Hl.
  destruct (rows_ok key o Hl Hv) as [Hok _].
  destruct (split1 line) as [|a l]; [discriminate|].
  cbn in Hk, Hbad. inversion Hk. subst. congruence.
Qed.

(** The rows, one by one: each stores the normalised reading of its own
    text, and what earlier rows stored for a component stays the
    normalised reading of that component's text. *)
Lemma rows_run fuel lines rows :
  forall j st hp1,
    (forall kv, In kv rows ->
                In kv all_symbols /\ is_variable_type (hp (snd kv)) = true) ->
    is_None (status st) = false ->
    (forall o, is_variable_type (hp1 o) = is_variable_type (hp o)) ->
    exists hp',
      for_lines (S fuel) R P all_symbols lines j
        (map (fun l => l ++ nl) (map (warmstart_row hp) rows)) st hp1
      = (hp', Normal st) /\
      (forall o, is_variable_type (hp' o) = is_variable_type (hp o)) /\
      (forall o V v,
          py_float (row_value hp o ++ nl) = Some V ->
          normalize V R P = Normal v ->
          (value (hp1 o) = Some v \/ exists key, In (key, o) rows) ->
          value (hp' o) = Some v).
Proof.
  induction rows as [|[key o] rows IH]; intros j st hp1 Hin Hst Hflag.
  - exists hp1. cbn [map for_lines]. split; [reflexivity|]. split; [exact Hflag|].
    intros o V v _ _ [H | [key []]]. exact H.
  - destruct (Hin (key, o) (or_introl eq_refl)) as [Hmem Hvar].
    cbn [snd] in Hvar.
    destruct (rows_ok key o Hmem Hvar) as (Hok & Hplain & V & v & Hf & Hn).
    unfold symbol_ok in Hok. rewrite !andb_true_iff in Hok.
    destruct Hok as [[[Hkey _] _] _].
    cbn [map].
    erewrite for_lines_step; cycle 1.
    { apply while_status_skip. now rewrite Hst. }
    { rewrite (else_clause_row R P all_symbols lines j _ st hp1 key
                 (row_value hp o ++ nl) o V).
      - rewrite Hn. reflexivity.
      - now apply marker_not_in_row.
      - rewrite row_line_shape. apply split1_at_blank.
        now apply plain_no_space.
      - now apply lookup_NoDup.
      - now rewrite Hflag.
      - exact Hf. }
    destruct (IH (S j) st (set_value hp1 o v)) as (hp' & Hrun & Hflag' & Hval).
    + intros kv Hkv. apply Hin. now right.
    + exact Hst.
    + intros o'. now rewrite set_value_flag.
    + exists hp'. split; [exact Hrun|]. split; [exact Hflag'|].
      intros o' V' v' Hf' Hn' Hsrc. apply (Hval o' V' v' Hf' Hn').
      destruct (Nat.eq_dec o' o) as [-> | Hne].
      * left. rewrite set_value_same.
        rewrite Hf in Hf'. inversion Hf'. subst V'.
        rewrite Hn in Hn'. now inversion Hn'.
      * destruct Hsrc as [Hv1 | [key' [E | Hin']]].
        -- left. now rewrite set_value_other.
        -- inversion E. congruence.
        -- right. now exists key'.
Qed.

Lemma warmstart_lines_no_LF :
  Forall (fun l => all_chars (fun c => negb (Ascii.eqb c LF)) l = true)
    (warmstart_lines all_symbols hp).
Proof.
  unfold warmstart_lines. cbv zeta.
  repeat (apply Forall_cons; [first [reflexivity | apply columns_no_LF]|]).
  apply Forall_forall. intros l Hl.
  apply in_map_iff in Hl as [[key o] [<- Hin]].
  apply filter_In in Hin as [Hin Hvar]. cbn [snd] in Hvar.
  destruct (rows_ok key o Hin Hvar) as (Hok & Hplain & _).
  unfold symbol_ok in Hok. rewrite !andb_true_iff in Hok.
  destruct Hok as [[[Hkey _] _] _].
  unfold warmstart_row. cbn [fst snd]. rewrite !all_chars_app.
  rewrite (plain_no_LF _ Hkey), (plain_no_LF _ Hplain). reflexivity.
Qed.

(** C2, the round trip up to normalisation: the decoder reads the file
    the writer produced to the end and returns; for every
    decision-variable symbol it then holds the normalised reading
    [normalize V R P] of the value text written for it, where [V] is what
    [float] makes of that text: the value itself when [float (str a)] is
    [a], the reading of [0.0] for [None].  The value is reproduced
    exactly only where [normalize] leaves it alone. *)
Theorem warmstart_roundtrip_normalized fuel :
  exists hp' res,
    _read_values_from_sol (S (S fuel)) R P all_symbols
      (_write_warmstartfile all_symbols hp) hp
    = (hp', Normal res) /\
    status res = Some "Unknown" /\
    primal_solutions res = Some "Unknown" /\
    forall key o V,
      In (key, o) all_symbols -> is_variable_type (hp o) = true ->
      py_float (row_value hp o ++ nl) = Some V ->
      exists v, normalize V R P = Normal v /\ value (hp' o) = Some v.
Proof.
  unfold _read_values_from_sol.
  rewrite write_warmstartfile_unlines.
  rewrite readlines_unlines by apply warmstart_lines_no_LF.
  unfold warmstart_lines. cbv zeta. rewrite map_app. cbn [map List.app].
  set (rows := decision_variables all_symbols hp).
  set (rl := map (fun l => l ++ nl) (map (warmstart_row hp) rows)).
  set (lines := (_ :: _ :: _ :: _ :: _ :: _ :: _ :: rl)%list).
  set (st1 := {| status := Some "Unknown"; primal_solutions := None;
                 objective := @None F |}).
  set (st2 := {| status := Some "Unknown";
                 primal_solutions := Some "Unknown";
                 objective := match py_float "Unknown" with
                              | Some v => Some v
                              | None => None
                              end |}).
  assert (Hsame : forall o, is_variable_type (hp o) = is_variable_type (hp o))
    by reflexivity.
  (* the header *)
  unfold lines at 2.
  rewrite (for_lines_step _ _ _ _ _ _ _ _ _ st1 st1 hp hp);
    [| reflexivity | now apply else_clause_skip_header].
  rewrite (for_lines_step _ _ _ _ _ _ _ _ _ st1 st1 hp hp);
    [| reflexivity | now apply else_clause_skip_header].
  rewrite (for_lines_step _ _ _ _ _ _ _ _ _ st1 st1 hp hp);
    [| reflexivity | now apply else_clause_skip_header].
  rewrite (for_lines_step _ _ _ _ _ _ _ _ _ st1 st2 hp hp);
    [| reflexivity | now rewrite else_clause_marker by reflexivity].
  rewrite (for_lines_step _ _ _ _ _ _ _ _ _ st2 st2 hp hp);
    [| reflexivity | now apply else_clause_skip_header].
  rewrite (for_lines_step _ _ _ _ _ _ _ _ _ st2 st2 hp hp);
    [| reflexivity | now apply else_clause_skip_header].
  rewrite (for_lines_step _ _ _ _ _ _ _ _ _ st2 st2 hp hp);
    [| reflexivity
     | apply else_clause_skip_header;
       [exact Hsame | apply marker_not_in_columns | reflexivity]].
  (* the rows *)
  destruct (rows_run (S fuel) lines rows 7%nat st2 hp)
    as (hp' & Hrun & _ & Hval).
  - intros [key o] Hin. apply filter_In in Hin. exact Hin.
  - reflexivity.
  - exact Hsame.
  - exists hp', st2. split; [exact Hrun|]. split; [reflexivity|].
    split; [reflexivity|].
    intros key o V Hin Hvar Hf.
    destruct (rows_ok key o Hin Hvar) as (_ & _ & V' & v & Hf' & Hn).
    rewrite Hf in Hf'. inversion Hf'. subst V'.
    exists v. split; [exact Hn|].
    apply (Hval o V v Hf Hn). right. exists key.
    apply filter_In. now split.
Qed.

End RoundTrip.

(** ** Instances on the sample inputs *)

(** C2, the exact round trip, does not hold: the writer prints
    [0.123456789] for [x1], the decoder rounds what it reads to eight
    places and stores [0.12345679]. *)
Lemma warmstart_roundtrip_not_exact :
  In ("x1", 0%nat) Sample.table_mixed /\
  is_variable_type (Sample.heap_mixed 0%nat) = true /\
  _write_warmstartfile Sample.table_mixed Sample.heap_mixed
  = unlines ["Model status"; "Unknown"; ""; "# Primal solution values";
             "Unknown"; "Objective Unknown"; "# Columns 2";
             "x1 0.123456789"; "x2 0.0"] /\
  value (Sample.heap_mixed 0%nat) = Some (DecFloat.lit 123456789 (-9)) /\
  value (fst (_read_values_from_sol 2 8 8 Sample.table_mixed
                (_write_warmstartfile Sample.table_mixed Sample.heap_mixed)
                Sample.heap_mixed) 0%nat)
  = Some (DecFloat.lit 12345679 (-8)) /\
  value (fst (_read_values_from_sol 2 8 8 Sample.table_mixed
                (_write_warmstartfile Sample.table_mixed Sample.heap_mixed)
                Sample.heap_mixed) 0%nat)
  <> value (Sample.heap_mixed 0%nat).
Proof.
  split; [now left|]. split; [reflexivity|].
  split; [vm_compute; reflexivity|]. split; [reflexivity|].
  split; [vm_compute; reflexivity|].
  vm_compute. discriminate.
Qed.

Lemma warmstart_roundtrip_normalized_witness :
  exists hp' res,
    _read_values_from_sol 2 8 8 Sample.table_mixed
      (_write_warmstartfile Sample.table_mixed Sample.heap_mixed)
      Sample.heap_mixed
    = (hp', Normal res) /\
    status res = Some "Unknown" /\
    primal_solutions res = Some "Unknown" /\
    forall key o V,
      In (key, o) Sample.table_mixed ->
      is_variable_type (Sample.heap_mixed o) = true ->
      py_float (row_value Sample.heap_mixed o ++ nl) = Some V ->
      exists v, normalize V 8 8 = Normal v /\ value (hp' o) = Some v.
Proof.
  apply (warmstart_roundtrip_normalized 8 8 Sample.table_mixed
           Sample.heap_mixed).
  - repeat constructor; cbn; intuition discriminate.
  - intros key o Hin Hvar. cbn in Hin.
    destruct Hin as [E | [E | [E | []]]]; inversion E; subst;
      try discriminate Hvar.
    + split; [reflexivity|]. split; [vm_compute; reflexivity|].
      exists (DecFloat.lit 123456789 (-9)), (DecFloat.lit 12345679 (-8)).
      split; vm_compute; reflexivity.
    + split; [reflexivity|]. split; [reflexivity|].
      exists (DecFloat.lit 0 0), (DecFloat.lit 0 0).
      split; vm_compute; reflexivity.
Defined.



Lemma read_values_only_table_symbols_witness :
  exists line key,
    In line (readlines Sample.sol_x1_x4) /\
    nth_error (split1 line) 0 = Some key /\
    lookup Sample.table_x1_x4 key = Some 1%nat /\
    is_variable_type (Sample.fresh_vars 1%nat) = true.
Proof.
  apply (proj1 (read_values_only_table_symbols 2 8 8 Sample.table_x1_x4
                  Sample.sol_x1_x4 Sample.fresh_vars) 1%nat).
  vm_compute. discriminate.
Defined.

Lemma read_values_from_sol_hangs_witness :
  _read_values_from_sol 1000 8 8 [("x1", 0%nat)]
    ("# Primal solution values" ++ nl ++ "x1 1.0" ++ nl)
    (fun _ => {| is_variable_type := true; value := @None DecFloat.t |})
  = (fun _ => {| is_variable_type := true; value := None |}, OutOfFuel).
Proof.
  apply (read_values_from_sol_hangs (FO := DecFloat.ops)).
  - discriminate.
  - vm_compute. reflexivity.
Defined.

Lemma cmd_timelim_falsy_witness :
  _cmd_timelim (PyInt 0 : pyval DecFloat.t) = "" /\
  cmd_line "highs" (PyInt 0 : pyval DecFloat.t) "tmp/solution.sol" ""
    "tmp/options.txt" "tmp/model.mps"
  = "highs  --solution_file tmp/solution.sol --options_file tmp/options.txt tmp/model.mps".
Proof.
  destruct (proj1 (@cmd_timelim_falsy DecFloat.t DecFloat.ops)
              (PyInt 0) eq_refl) as [H1 H2].
  split; [exact H1|]. rewrite H2. reflexivity.
Defined.

(** ** Dictionaries *)

Module PyDictFacts.

Import PyDict.

Section Facts.

Context {V : Type}.

Implicit Types (d kwargs : dict V) (k : string) (v : V).

Lemma mem_In k ks : mem k ks = true <-> In k ks.
Proof.
  unfold mem. rewrite existsb_exists. split.
  - intros [x [Hin Hx]]. apply String.eqb_eq in Hx. now subst.
  - intros Hin. exists k. split; [exact Hin | apply String.eqb_refl].
Qed.

Lemma get_setitem_same d k v : get (setitem d k v) k = Some v.
Proof.
  induction d as [|[k' v'] d IH]; cbn [setitem get].
  - now rewrite String.eqb_refl.
  - destruct (String.eqb k' k) eqn:E; cbn [get]; now rewrite E.
Qed.

Lemma get_setitem_other d k v k' :
  k' <> k -> get (setitem d k v) k' = get d k'.
Proof.
  intros Hne. induction d as [|[k0 v0] d IH]; cbn [setitem get].
  - destruct (String.eqb_spec k k'); [congruence | reflexivity].
  - destruct (String.eqb_spec k0 k) as [->|Hk]; cbn [get].
    + destruct (String.eqb_spec k k'); [congruence | reflexivity].
    + now rewrite IH.
Qed.

Lemma keys_setitem d k v :
  keys (setitem d k v) = if mem k (keys d) then keys d else (keys d ++ [k])%list.
Proof.
  unfold keys, mem. induction d as [|[k' v'] d IH]; cbn [setitem map fst existsb].
  - reflexivity.
  - rewrite (String.eqb_sym k k').
    destruct (String.eqb_spec k' k) as [->|Hk]; cbn [map fst orb].
    + reflexivity.
    + rewrite IH. now destruct (existsb (String.eqb k) (map fst d)).
Qed.

Lemma get_None_keys d k : get d k = None <-> ~ In k (keys d).
Proof.
  unfold keys. induction d as [|[k' v'] d IH]; cbn [get map fst In].
  - tauto.
  - destruct (String.eqb_spec k' k) as [->|Hk].
    + split; [discriminate | intros H; exfalso; apply H; now left].
    + rewrite IH. tauto.
Qed.

Lemma NoDup_setitem d k v : NoDup (keys d) -> NoDup (keys (setitem d k v)).
Proof.
  intros Hnd. rewrite keys_setitem. destruct (mem k (keys d)) eqn:E; [exact Hnd|].
  assert (~ In k (keys d)) as Hk.
  { intros Hin. apply mem_In in Hin. congruence. }
  apply NoDup_app; [exact Hnd | repeat constructor; intros [] | ].
  intros x Hx [<- | []]. exact (Hk Hx).
Qed.

Lemma update_cons d k v kwargs :
  update d ((k, v) :: kwargs) = update (setitem d k v) kwargs.
Proof. reflexivity. Qed.

Lemma NoDup_update d kwargs : NoDup (keys d) -> NoDup (keys (update d kwargs)).
Proof.
  revert d. induction kwargs as [|[k v] kwargs IH]; intros d Hnd; [exact Hnd|].
  rewrite update_cons. apply IH. now apply NoDup_setitem.
Qed.

Lemma get_update_notin d kwargs k :
  ~ In k (keys kwargs) -> get (update d kwargs) k = get d k.
Proof.
  revert d. induction kwargs as [|[k0 v0] kwargs IH]; intros d Hk; [reflexivity|].
  rewrite update_cons. cbn [keys map fst In] in Hk.
  rewrite IH by tauto. apply get_setitem_other. intros ->. tauto.
Qed.

Lemma get_update_in d kwargs k v :
  NoDup (keys kwargs) -> In (k, v) kwargs -> get (update d kwargs) k = Some v.
Proof.
  revert d. induction kwargs as [|[k0 v0] kwargs IH]; intros d Hnd Hin;
    [contradiction|].
  rewrite update_cons. cbn [keys map fst] in Hnd.
  inversion Hnd as [|? ? Hk0 Hnd']. subst.
  destruct Hin as [E | Hin].
  - inversion E. subst. rewrite get_update_notin by exact Hk0.
    apply get_setitem_same.
  - now apply IH.
Qed.

Lemma filter_new_snoc (ks : list string) k (l : list string) :
  ~ In k l ->
  filter (fun x => negb (mem x (ks ++ [k])%list)) l
  = filter (fun x => negb (mem x ks)) l.
Proof.
  intros Hk. induction l as [|x l IH]; [reflexivity|].
  cbn [filter]. rewrite IH by (intros H; apply Hk; now right).
  replace (mem x (ks ++ [k])%list) with (mem x ks); [reflexivity|].
  unfold mem. rewrite existsb_app. cbn [existsb].
  destruct (String.eqb_spec x k) as [->|_].
  - exfalso. apply Hk. now left.
  - now rewrite !orb_false_r.
Qed.

(** The keys after an update: the old ones in place, then the new ones in
    the order of the arguments. *)
Lemma keys_update d kwargs :
  NoDup (keys kwargs) ->
  keys (update d kwargs)
  = (keys d ++ filter (fun k => negb (mem k (keys d))) (keys kwargs))%list.
Proof.
  revert d. induction kwargs as [|[k v] kwargs IH]; intros d Hnd.
  - cbn. now rewrite app_nil_r.
  - rewrite update_cons. cbn [keys map fst] in *.
    inversion Hnd as [|? ? Hk Hnd']. subst.
    rewrite (IH _ Hnd'). fold (keys d) (keys kwargs).
    pose proof (keys_setitem d k v) as Hs. unfold keys in Hs at 1.
    unfold keys at 1 2. rewrite Hs. fold (keys d). cbn [filter].
    destruct (mem k (keys d)) eqn:E; cbn [negb].
    + reflexivity.
    + rewrite filter_new_snoc by exact Hk. now rewrite <- app_assoc.
Qed.

(** A loop that assigns some of its items is an update by those items. *)
Lemma fold_setitem_filter (p : string * V -> bool) kwargs d :
  fold_left (fun d kv => if p kv then setitem d (fst kv) (snd kv) else d)
    kwargs d
  = update d (filter p kwargs).
Proof.
  revert d. induction kwargs as [|kv kwargs IH]; intros d; [reflexivity|].
  cbn [fold_left filter]. rewrite IH. now destruct (p kv).
Qed.

Lemma NoDup_keys_filter (p : string * V -> bool) d :
  NoDup (keys d) -> NoDup (keys (filter p d)).
Proof.
  unfold keys. induction d as [|kv d IH]; cbn [filter map]; intros Hnd;
    [constructor|].
  inversion Hnd as [|? ? Hk Hnd']. subst.
  destruct (p kv); cbn [map]; [|now apply IH].
  constructor; [|now apply IH].
  intros Hin. apply Hk. apply in_map_iff in Hin as [x [Hx Hin]].
  apply filter_In in Hin as [Hin _]. apply in_map_iff. now exists x.
Qed.

(** Updating an empty dict by arguments with distinct keys gives the
    arguments. *)
Lemma update_nil kwargs : NoDup (keys kwargs) -> update [] kwargs = kwargs.
Proof.
  assert (G : forall d, NoDup (keys (d ++ kwargs)%list) ->
                        update d kwargs = (d ++ kwargs)%list).
  { induction kwargs as [|[k v] kwargs IH]; intros d Hnd.
    - cbn. now rewrite app_nil_r.
    - rewrite update_cons.
      assert (setitem d k v = (d ++ [(k, v)])%list) as ->.
      { unfold keys in Hnd. rewrite map_app in Hnd. cbn [map fst] in Hnd.
        apply NoDup_remove_2 in Hnd.
        assert (~ In k (map fst d)) as Hk
          by (intros H; apply Hnd, in_or_app; now left).
        clear -Hk. induction d as [|[k' v'] d IH]; [reflexivity|].
        cbn [setitem map fst In app] in *.
        destruct (String.eqb_spec k' k) as [->|_]; [tauto|].
        rewrite IH by tauto. reflexivity. }
      rewrite IH; rewrite <- app_assoc; [reflexivity | exact Hnd]. }
  intros Hnd. now apply (G []).
Qed.

End Facts.

End PyDictFacts.

(** ** The options dict and the options file *)

Module HiGHSFilesFacts.

Import PyDict PyDictFacts HiGHSFiles.

Section OptionsFacts.

Context {V : Type} (fmt_value : V -> string).

Implicit Types (self options : dict V).

Lemma parse_options_update self options :
  parse_options self options = update self options.
Proof. reflexivity. Qed.

(** X1: after [parse_options] every option passed has the value passed,
    and every other key has the value it had: options are only ever added
    or overwritten. *)
Theorem parse_options_lookup self options :
  NoDup (keys options) ->
  (forall k v, In (k, v) options ->
               get (parse_options self options) k = Some v)
  /\
  (forall k, ~ In k (keys options) ->
             get (parse_options self options) k = get self k).
Proof.
  intros Hnd. split.
  - intros k v Hin. now apply get_update_in.
  - intros k Hk. now apply get_update_notin.
Qed.

(** X2: [parse_options] keeps the keys distinct and never removes or
    moves one: the keys afterwards are the old ones in their order,
    followed by the new ones in the order of the arguments. *)
Theorem parse_options_keys self options :
  NoDup (keys self) -> NoDup (keys options) ->
  NoDup (keys (parse_options self options)) /\
  keys (parse_options self options)
  = (keys self
       ++ filter (fun k => negb (mem k (keys self))) (keys options))%list.
Proof.
  intros Hs Ho. split.
  - now apply NoDup_update.
  - now apply keys_update.
Qed.

Lemma write_options_unlines self file :
  fold_left
    (fun file kv => write file (fst kv ++ " = " ++ fmt_value (snd kv) ++ nl))
    self file
  = file ++ unlines (map (fun kv => fst kv ++ " = " ++ fmt_value (snd kv)) self).
Proof.
  revert file. induction self as [|kv self IH]; intros file.
  - cbn. now rewrite append_nil_r.
  - cbn [fold_left map unlines]. rewrite IH. unfold write.
    now rewrite !append_assoc.
Qed.

(** X3: the options file that [set_options] writes reads back, line by
    line, as one [key = value] line per option of the dict, in the order
    of the dict, when no key and no printed value has a line break in
    it. *)
Theorem set_options_file_lines self options :
  (forall kv, In kv (fst (set_options fmt_value self options)) ->
              all_chars (fun c => negb (Ascii.eqb c LF)) (fst kv) = true /\
              all_chars (fun c => negb (Ascii.eqb c LF)) (fmt_value (snd kv))
              = true) ->
  readlines (snd (set_options fmt_value self options))
  = map (fun kv => fst kv ++ " = " ++ fmt_value (snd kv) ++ nl)
      (fst (set_options fmt_value self options)).
Proof.
  unfold set_options. cbn [fst snd]. intros Hok.
  unfold write_options. rewrite write_options_unlines.
  match goal with |- context ["" ++ ?x] => change ("" ++ x) with x end.
  rewrite readlines_unlines.
  - rewrite map_map. apply map_ext. intros kv. now rewrite !append_assoc.
  - apply Forall_forall. intros l Hl.
    apply in_map_iff in Hl as [kv [<- Hin]].
    destruct (Hok kv Hin) as [Hk Hv].
    rewrite !all_chars_app, Hk, Hv. reflexivity.
Qed.

Lemma setitem_same_value self k v :
  get self k = Some v -> setitem self k v = self.
Proof.
  induction self as [|[k' v'] self IH]; cbn [get setitem]; [discriminate|].
  destruct (String.eqb_spec k' k) as [->|_].
  - intros H. now inversion H.
  - intros H. now rewrite IH.
Qed.

Lemma update_fixed self options :
  (forall k v, In (k, v) options -> get self k = Some v) ->
  update self options = self.
Proof.
  induction options as [|[k v] options IH]; intros H; [reflexivity|].
  rewrite update_cons, setitem_same_value by (apply H; now left).
  apply IH. intros k' v' Hin. apply H. now right.
Qed.

(** X4: [reset_options] erases nothing.  Its [self.__init__] is
    [dict.__init__] on the populated dict, which updates it, so the call
    leaves the same dict and writes the same file as [set_options], and
    every option set before is still there. *)
Theorem reset_options_keeps_options self options :
  NoDup (keys options) ->
  reset_options fmt_value self options = set_options fmt_value self options
  /\
  (forall k, ~ In k (keys options) ->
             get (fst (reset_options fmt_value self options)) k = get self k).
Proof.
  intros Hnd.
  assert (E : reset_options fmt_value self options
              = set_options fmt_value self options).
  { unfold reset_options, set_options. rewrite !parse_options_update.
    rewrite (update_fixed (update self options) options); [reflexivity|].
    intros k v Hin. now apply get_update_in. }
  split; [exact E|].
  intros k Hk. rewrite E. unfold set_options. cbn [fst].
  now apply get_update_notin.
Qed.

End OptionsFacts.

(** *** File names *)

Lemma append_length a b :
  String.length (a ++ b) = (String.length a + String.length b)%nat.
Proof. induction a as [|c a IH]; cbn; [reflexivity | now rewrite IH]. Qed.

Lemma append_cancel_l p a b : p ++ a = p ++ b -> a = b.
Proof.
  induction p as [|c p IH]; cbn [append]; [tauto|].
  intros H. inversion H. now apply IH.
Qed.

Lemma append_cancel_r e a b : a ++ e = b ++ e -> a = b.
Proof.
  revert b. induction a as [|c a IH]; intros [|c' b] H; cbn [append] in H.
  - reflexivity.
  - exfalso. apply (f_equal String.length) in H.
    cbn [String.length] in H. rewrite append_length in H. lia.
  - exfalso. apply (f_equal String.length) in H.
    cbn [String.length] in H. rewrite append_length in H. lia.
  - inversion H. f_equal. now apply IH.
Qed.

Lemma remove_dots_none s :
  all_chars (fun c => negb (Ascii.eqb c ".")) s = true -> remove_dots s = s.
Proof.
  induction s as [|c s IH]; cbn [all_chars remove_dots]; [reflexivity|].
  rewrite andb_true_iff, negb_true_iff. intros [-> Hs]. now rewrite IH.
Qed.

Lemma str_nat_no_dot n :
  all_chars (fun c => negb (Ascii.eqb c ".")) (str_nat n) = true.
Proof.
  apply (all_chars_weaken is_digit); [|apply str_nat_digits].
  intros c. destruct c as [[] [] [] [] [] [] [] []];
    vm_compute; intros H; congruence.
Qed.

Lemma to_uint_not_Nil n : Nat.to_uint n <> Decimal.Nil.
Proof.
  intros H. pose proof (DecimalNat.Unsigned.of_to n) as E.
  rewrite H in E. cbn in E. subst n. discriminate H.
Qed.

Lemma str_nat_inj n1 n2 : str_nat n1 = str_nat n2 -> n1 = n2.
Proof.
  unfold str_nat. intros H.
  apply DecimalNat.Unsigned.to_uint_inj.
  pose proof (NilZero.usu _ (to_uint_not_Nil n1)) as E1.
  pose proof (NilZero.usu _ (to_uint_not_Nil n2)) as E2.
  rewrite H in E1. rewrite E1 in E2. now inversion E2.
Qed.

Lemma str_nat_truthy n : exists c s, str_nat n = String c s.
Proof.
  destruct (str_nat n) as [|c s] eqn:E; [|now exists c, s].
  exfalso. pose proof (NilZero.usu _ (to_uint_not_Nil n)) as U.
  unfold str_nat in E. rewrite E in U. discriminate U.
Qed.

(** The name [parse_file] makes from a time stamp. *)
Lemma parse_file_timestamp from_suffix self t :
  filename (parse_file from_suffix self None (Some (str_nat t)))
  = from_suffix (str_nat t).
Proof.
  unfold parse_file. destruct (str_nat_truthy t) as [c [s E]].
  rewrite E, <- E. cbn [filename].
  now rewrite remove_dots_none by apply str_nat_no_dot.
Qed.

(** X5: the temporary files of two solves with different time stamps
    have different names, kind by kind; and whatever the suffixes, the
    model, solution and warm-start files of the [./tmp] folder never share
    a name. *)
Theorem temporary_names_distinct :
  (forall self1 self2 t1 t2,
      t1 <> t2 ->
      filename (parse_file ModelFileMPS_from_suffix self1 None
                  (Some (str_nat t1)))
      <> filename (parse_file ModelFileMPS_from_suffix self2 None
                     (Some (str_nat t2)))
      /\
      filename (parse_file SolFile_from_suffix self1 None (Some (str_nat t1)))
      <> filename (parse_file SolFile_from_suffix self2 None
                     (Some (str_nat t2)))
      /\
      filename (parse_file WarmstartFile_from_suffix self1 None
                  (Some (str_nat t1)))
      <> filename (parse_file WarmstartFile_from_suffix self2 None
                     (Some (str_nat t2))))
  /\
  (forall s1 s2 s3,
      ModelFileMPS_from_suffix s1 <> SolFile_from_suffix s2 /\
      ModelFileMPS_from_suffix s1 <> WarmstartFile_from_suffix s3 /\
      SolFile_from_suffix s2 <> WarmstartFile_from_suffix s3 /\
      options_filename <> ModelFileMPS_from_suffix s1 /\
      options_filename <> SolFile_from_suffix s2 /\
      options_filename <> WarmstartFile_from_suffix s3).
Proof.
  split.
  - intros self1 self2 t1 t2 Hne. rewrite !parse_file_timestamp.
    unfold ModelFileMPS_from_suffix, SolFile_from_suffix,
      WarmstartFile_from_suffix.
    repeat split; intros H;
      apply append_cancel_l, append_cancel_l in H;
      rewrite <- !append_assoc in H || idtac;
      apply append_cancel_r, str_nat_inj in H; contradiction.
  - intros s1 s2 s3. repeat split; intros H; vm_compute in H; discriminate H.
Qed.

Lemma parse_file_keeps_false from_suffix self file suffix :
  temporary self = false ->
  temporary (parse_file from_suffix self file suffix) = false.
Proof.
  intros Hf. unfold parse_file.
  destruct file as [[|c f]|]; try reflexivity;
    destruct suffix as [[|c' s]|]; cbn; auto.
Qed.

Lemma parse_files_of_keeps_false cls self calls :
  plain_class cls ->
  temporary self = false ->
  temporary (parse_files_of cls self calls) = false.
Proof.
  intros Hc. unfold parse_files_of. revert self.
  induction calls as [|[file suffix] calls IH]; intros self Hf; [exact Hf|].
  cbn [fold_left fst snd]. apply IH.
  destruct Hc as [-> | [-> | ->]]; now apply parse_file_keeps_false.
Qed.

Lemma LogFile_parse_files_temporary self calls :
  temporary (parse_files_of ClsLogFile self calls) = temporary self.
Proof.
  unfold parse_files_of. revert self.
  induction calls as [|[file suffix] calls IH]; intros self; [reflexivity|].
  cbn [fold_left fst snd]. rewrite IH. cbn [parse_file_of].
  unfold LogFile_parse_file. now destruct file as [[|c f]|].
Qed.

(** X6: for a model or solution file object, once [parse_file] was given
    a file name by the caller the object is no longer temporary, whatever
    [parse_file] calls follow, also those that put a [./tmp] name back,
    and its [delete_file] removes nothing.  The warm-start file is
    another matter: its own [delete_file] removes the file whenever it
    exists, temporary or not.  So is the log file: its [parse_file] never
    changes [temporary]. *)
Theorem user_file_never_deleted :
  (forall cls path_exists self calls c f suffix,
      plain_class cls ->
      In (Some (String c f), suffix) calls ->
      temporary (parse_files_of cls self calls) = false /\
      delete_file_of cls path_exists (parse_files_of cls self calls) = None)
  /\
  (forall path_exists self,
      path_exists (filename self) = true ->
      delete_file_of ClsWarmstartFile path_exists self = Some (filename self))
  /\
  (forall path_exists self calls,
      temporary self = true ->
      delete_file_of ClsLogFile path_exists (parse_files_of ClsLogFile self calls)
      = Some (filename (parse_files_of ClsLogFile self calls))).
Proof.
  split; [|split].
  - intros cls path_exists self calls c f suffix Hc Hin.
    assert (T : temporary (parse_files_of cls self calls) = false).
    { apply in_split in Hin as [l1 [l2 ->]]. unfold parse_files_of.
      rewrite fold_left_app. cbn [fold_left fst snd].
      apply (parse_files_of_keeps_false cls _ l2 Hc).
      destruct Hc as [-> | [-> | ->]]; reflexivity. }
    split; [exact T|].
    destruct Hc as [-> | [-> | ->]]; unfold delete_file_of; now rewrite T.
  - intros path_exists self He. unfold delete_file_of. now rewrite He.
  - intros path_exists self calls Ht. unfold delete_file_of.
    now rewrite LogFile_parse_files_temporary, Ht.
Qed.

End HiGHSFilesFacts.

(** ** Option handling of the solver object *)

Section SolverOptionsFacts.

Import PyDict PyDictFacts.

Context {F : Type} {FO : FloatOps F}.

Lemma split_options_fold {V : Type} (options : dict V) cmd other :
  fold_left
    (fun acc kv =>
       let '(cmd_options, other_options) := acc in
       if mem (fst kv) cmd_keys
       then (setitem cmd_options (fst kv) (snd kv), other_options)
       else (cmd_options, setitem other_options (fst kv) (snd kv)))
    options (cmd, other)
  = (update cmd (filter (fun kv => mem (fst kv) cmd_keys) options),
     update other (filter (fun kv => negb (mem (fst kv) cmd_keys)) options)).
Proof.
  revert cmd other. induction options as [|kv options IH]; intros cmd other;
    [reflexivity|].
  cbn [fold_left filter].
  destruct (mem (fst kv) cmd_keys); cbn [negb]; now rewrite IH.
Qed.

Lemma split_options_filter {V : Type} (options : dict V) :
  NoDup (keys options) ->
  _split_options options
  = (filter (fun kv => mem (fst kv) cmd_keys) options,
     filter (fun kv => negb (mem (fst kv) cmd_keys)) options).
Proof.
  intros Hnd. unfold _split_options.
  etransitivity; [apply (split_options_fold options [] [])|].
  now rewrite !update_nil by now apply NoDup_keys_filter.
Qed.

(** X7: [_split_options] sorts the options into the ones named in
    [cmd_keys] and the rest, each part in the order of the arguments;
    every option is in exactly one part.  [log_file] is not among
    [cmd_keys]. *)
Theorem split_options_partition {V : Type} (options : dict V) :
  NoDup (keys options) ->
  _split_options options
  = (filter (fun kv => mem (fst kv) cmd_keys) options,
     filter (fun kv => negb (mem (fst kv) cmd_keys)) options)
  /\ mem "log_file" cmd_keys = false.
Proof.
  intros Hnd. split; [now apply split_options_filter | reflexivity].
Qed.

Lemma parse_cmd_options_update (self options : dict (pyval F)) :
  _parse_cmd_options self options
  = update self (filter (fun kv => is_not_None (snd kv)) options).
Proof. apply (fold_setitem_filter (fun kv => is_not_None (snd kv))). Qed.

(** X8: [_parse_cmd_options] stores every argument that is not [None]
    and leaves an attribute alone when its argument is [None] or absent:
    an attribute, once set, cannot be put back to [None] this way. *)
Theorem parse_cmd_options_lookup (self options : dict (pyval F)) :
  NoDup (keys options) ->
  (forall k v, In (k, v) options -> v <> PyNone ->
               get (_parse_cmd_options self options) k = Some v)
  /\
  (forall k, (forall v, In (k, v) options -> v = PyNone) ->
             get (_parse_cmd_options self options) k = get self k).
Proof.
  intros Hnd. rewrite parse_cmd_options_update. split.
  - intros k v Hin Hv. apply get_update_in.
    + now apply NoDup_keys_filter.
    + apply filter_In. split; [exact Hin|]. cbn [snd].
      destruct v; [congruence | reflexivity | reflexivity | reflexivity].
  - intros k Hk. apply get_update_notin. intros Hin.
    apply in_map_iff in Hin as [[k' v] [E Hin]]. cbn [fst] in E. subst k'.
    apply filter_In in Hin as [Hin Hv]. cbn [snd] in Hv.
    rewrite (Hk v Hin) in Hv. discriminate Hv.
Qed.

(** X9: [parse_options] of the solver keeps the two stores apart: a key
    of [cmd_keys] never reaches the options dict, any other key never
    reaches the attributes and is stored in the options dict with the
    value passed. *)
Theorem HiGHS_parse_options_separation
    (self self_options options : dict (pyval F)) :
  NoDup (keys options) ->
  (forall k, mem k cmd_keys = true ->
             get (snd (HiGHS_parse_options self self_options options)) k
             = get self_options k)
  /\
  (forall k, mem k cmd_keys = false ->
             get (fst (HiGHS_parse_options self self_options options)) k
             = get self k)
  /\
  (forall k v, In (k, v) options -> mem k cmd_keys = false ->
               get (snd (HiGHS_parse_options self self_options options)) k
               = Some v).
Proof.
  intros Hnd. unfold HiGHS_parse_options.
  rewrite (split_options_filter options Hnd). cbn [fst snd].
  rewrite parse_cmd_options_update. unfold HiGHSFiles.parse_options.
  fold (update self_options
          (filter (fun kv => negb (mem (fst kv) cmd_keys)) options)).
  split; [|split].
  - intros k Hk. apply get_update_notin. intros Hin.
    apply in_map_iff in Hin as [[k' v] [E Hin]]. cbn [fst] in E. subst k'.
    apply filter_In in Hin as [_ Hv]. cbn [fst] in Hv. rewrite Hk in Hv.
    discriminate Hv.
  - intros k Hk. apply get_update_notin. intros Hin.
    apply in_map_iff in Hin as [[k' v] [E Hin]]. cbn [fst] in E. subst k'.
    apply filter_In in Hin as [Hin _].
    apply filter_In in Hin as [_ Hv]. cbn [fst] in Hv. rewrite Hk in Hv.
    discriminate Hv.
  - intros k v Hin Hk. apply get_update_in.
    + now apply NoDup_keys_filter.
    + apply filter_In. split; [exact Hin|]. cbn [fst]. now rewrite Hk.
Qed.

(** X10: the table [_write_symbol_map] builds has distinct keys, and it
    is the symbol map itself when that has distinct symbols. *)
Theorem write_symbol_map_keys (bySymbol : list (string * oid)) :
  NoDup (map fst (_write_symbol_map bySymbol))
  /\ (NoDup (map fst bySymbol) -> _write_symbol_map bySymbol = bySymbol).
Proof.
  split.
  - apply (NoDup_update (V := oid) [] bySymbol). constructor.
  - intros Hnd. now apply (update_nil (V := oid)).
Qed.

End SolverOptionsFacts.

(** ** More on the decoder *)

Section DecoderMore.

Context {F : Type} {FO : FloatOps F}.

Implicit Types (st : locals F) (hp : heap F) (all_symbols : symtab).

(** The loop over a list of lines in two parts. *)
Lemma for_lines_app fuel R P all_symbols lines pre post :
  forall j st hp,
    for_lines fuel R P all_symbols lines j (pre ++ post)%list st hp
    = match for_lines fuel R P all_symbols lines j pre st hp with
      | (hp1, Normal st1) =>
          for_lines fuel R P all_symbols lines (j + List.length pre) post
            st1 hp1
      | other => other
      end.
Proof.
  induction pre as [|line pre IH]; intros j st hp.
  - cbn [List.app for_lines List.length]. now rewrite Nat.add_0_r.
  - cbn [List.app for_lines List.length].
    destruct (while_status fuel lines j line st) as [st1| |]; try reflexivity.
    destruct (else_clause R P all_symbols lines j line st1 hp)
      as [hp1 [st2| |]]; try reflexivity.
    rewrite IH. now rewrite Nat.add_succ_r.
Qed.

Lemma else_clause_status R P all_symbols lines j line st hp hp1 st2 :
  else_clause R P all_symbols lines j line st hp = (hp1, Normal st2) ->
  status st2 = status st.
Proof.
  destruct (str_in "# Primal solution values" line) eqn:Hm.
  - rewrite else_clause_marker by exact Hm.
    destruct (getitem lines (j + 1)) as [l1| |]; cbn [bind];
      try (intros H; inversion H; fail).
    destruct (getitem lines (j + 2)) as [l2| |]; cbn [bind];
      try (intros H; inversion H; fail).
    intros H. inversion H. reflexivity.
  - intros H. apply else_clause_row_locals in H; [now subst | exact Hm].
Qed.

Lemma while_status_set fuel lines j line st st1 s :
  status st = Some s ->
  while_status fuel lines j line st = Normal st1 -> st1 = st.
Proof.
  intros Hs. destruct fuel as [|fuel]; [discriminate|].
  rewrite while_status_skip by now rewrite Hs.
  intros H. now inversion H.
Qed.

(** [status], once captured, is what the method returns. *)
Lemma for_lines_status_kept fuel R P all_symbols lines rest s :
  forall j st hp hp' res,
    status st = Some s ->
    for_lines fuel R P all_symbols lines j rest st hp = (hp', Normal res) ->
    status res = Some s.
Proof.
  induction rest as [|line rest IH]; intros j st hp hp' res Hs; cbn [for_lines].
  - intros H. inversion H. now subst.
  - destruct (while_status fuel lines j line st) as [st1| |] eqn:W;
      try discriminate.
    apply (while_status_set _ _ _ _ _ _ s Hs) in W. subst st1.
    destruct (else_clause R P all_symbols lines j line st hp)
      as [hp1 [st2| |]] eqn:E; try discriminate.
    apply IH. apply else_clause_status in E. congruence.
Qed.

(** X11: a normal return on a non-empty file means that the first line
    holds ["Model status"] and that [status] is the second line without
    its terminator; the marker is looked for on the first line only.  On
    the empty file the method returns with all three fields [None]. *)
Theorem read_values_status fuel R P all_symbols hp :
  (forall file_txt hp' res,
      file_txt <> "" ->
      _read_values_from_sol fuel R P all_symbols file_txt hp
      = (hp', Normal res) ->
      str_in "Model status" (hd "" (readlines file_txt)) = true /\
      exists l1,
        nth_error (readlines file_txt) 1 = Some l1 /\
        status res = Some (rstrip_nl l1))
  /\
  _read_values_from_sol fuel R P all_symbols "" hp
  = (hp, Normal {| status := None; primal_solutions := None;
                   objective := None |}).
Proof.
  split; [|reflexivity].
  intros file_txt hp' res Hne. unfold _read_values_from_sol.
  apply readlines_nonempty in Hne.
  destruct (readlines file_txt) as [|l0 rest] eqn:E; [congruence|].
  cbn [hd for_lines].
  set (lines := (l0 :: rest)%list).
  set (st0 := {| status := None; primal_solutions := None;
                 objective := None |}).
  destruct (str_in "Model status" l0) eqn:Hm.
  - destruct fuel as [|fuel]; [discriminate|].
    cbn [while_status]. rewrite Hm. cbn [status st0 is_None andb Nat.leb].
    destruct (getitem lines (0 + 1)) as [l1| |] eqn:G; cbn [bind];
      try discriminate.
    apply getitem_Normal in G.
    destruct (while_status fuel lines 0 l0 _) as [st1| |] eqn:W;
      try discriminate.
    eapply while_status_set in W; [|reflexivity]. subst st1.
    destruct (else_clause R P all_symbols lines 0 l0 _ hp)
      as [hp1 [st2| |]] eqn:C; try discriminate.
    intros H. split; [reflexivity|]. exists l1. split; [exact G|].
    apply else_clause_status in C.
    eapply for_lines_status_kept; [|exact H]. exact C.
  - rewrite while_status_spin by (reflexivity || lia || exact Hm).
    discriminate.
Qed.

(** X12: there is no rollback.  When the lines before a row were read
    without error and the row of a decision variable then has no value
    token, or one that is no float, the call raises [IndexError],
    respectively [ValueError], and the heap is the one the earlier rows
    left: their assignments stay. *)
Theorem read_values_error_keeps_assignments
    fuel R P all_symbols file_txt hp pre line rest hp1 st1 key o :
  readlines file_txt = (pre ++ line :: rest)%list ->
  for_lines (S fuel) R P all_symbols (readlines file_txt) 0 pre
    {| status := None; primal_solutions := None; objective := None |} hp
  = (hp1, Normal st1) ->
  is_None (status st1) && (List.length pre <=? 10)%nat = false ->
  str_in "# Primal solution values" line = false ->
  lookup all_symbols key = Some o ->
  is_variable_type (hp1 o) = true ->
  (split1 line = [key] ->
   _read_values_from_sol (S fuel) R P all_symbols file_txt hp
   = (hp1, Raise IndexError))
  /\
  (forall txt,
      split1 line = [key; txt] -> py_float txt = None ->
      _read_values_from_sol (S fuel) R P all_symbols file_txt hp
      = (hp1, Raise ValueError)).
Proof.
  intros Hl Hpre Hc Hm Hk Hv.
  assert (Hstep :
            _read_values_from_sol (S fuel) R P all_symbols file_txt hp
            = match else_clause R P all_symbols (readlines file_txt)
                      (List.length pre) line st1 hp1 with
              | (hp2, Normal st2) =>
                  for_lines (S fuel) R P all_symbols (readlines file_txt)
                    (S (List.length pre)) rest st2 hp2
              | (hp2, r) => (hp2, r)
              end).
  { unfold _read_values_from_sol.
    replace (for_lines (S fuel) R P all_symbols (readlines file_txt) 0
               (readlines file_txt) _ hp)
      with (for_lines (S fuel) R P all_symbols (readlines file_txt) 0
              (pre ++ line :: rest)%list
              {| status := None; primal_solutions := None;
                 objective := None |} hp)
      by now rewrite <- Hl.
    rewrite for_lines_app, Hpre. cbn [Nat.add for_lines].
    now rewrite while_status_skip by exact Hc. }
  rewrite Hstep. unfold else_clause. rewrite Hm. cbv zeta. split.
  - intros Hs. rewrite Hs. cbn [getitem nth_error]. rewrite Hk, Hv.
    reflexivity.
  - intros txt Hs Hf. rewrite Hs. cbn [getitem nth_error]. rewrite Hk, Hv.
    cbn [List.length Nat.ltb Nat.leb bind]. now rewrite Hf.
Qed.

(** X13: a primal marker on the last or the last but one line makes the
    call raise [IndexError], whatever the rows before it stored. *)
Theorem read_values_marker_at_end
    fuel R P all_symbols file_txt hp pre line rest hp1 st1 :
  readlines file_txt = (pre ++ line :: rest)%list ->
  (List.length rest < 2)%nat ->
  str_in "# Primal solution values" line = true ->
  for_lines (S fuel) R P all_symbols (readlines file_txt) 0 pre
    {| status := None; primal_solutions := None; objective := None |} hp
  = (hp1, Normal st1) ->
  is_None (status st1) && (List.length pre <=? 10)%nat = false ->
  _read_values_from_sol (S fuel) R P all_symbols file_txt hp
  = (hp1, Raise IndexError).
Proof.
  intros Hl Hlen Hm Hpre Hc. unfold _read_values_from_sol.
  replace (for_lines (S fuel) R P all_symbols (readlines file_txt) 0
             (readlines file_txt) _ hp)
    with (for_lines (S fuel) R P all_symbols (readlines file_txt) 0
            (pre ++ line :: rest)%list
            {| status := None; primal_solutions := None;
               objective := None |} hp)
    by now rewrite <- Hl.
  rewrite for_lines_app, Hpre. cbn [Nat.add for_lines].
  rewrite while_status_skip by exact Hc.
  rewrite else_clause_marker by exact Hm.
  assert (Hnone : nth_error (readlines file_txt) (List.length pre + 2) = None).
  { apply nth_error_None. rewrite Hl, length_app. cbn [List.length]. lia. }
  unfold getitem. rewrite Hnone.
  destruct (nth_error (readlines file_txt) (List.length pre + 1));
    reflexivity.
Qed.

(** Lines without the primal marker leave [primal_solutions] and
    [objective] alone. *)
Lemma for_lines_no_marker fuel R P all_symbols lines rest :
  forall j st hp hp' res,
    (forall line, In line rest ->
                  str_in "# Primal solution values" line = false) ->
    for_lines fuel R P all_symbols lines j rest st hp = (hp', Normal res) ->
    primal_solutions res = primal_solutions st /\
    objective res = objective st.
Proof.
  induction rest as [|line rest IH]; intros j st hp hp' res Hno; cbn [for_lines].
  - intros H. inversion H. now split.
  - destruct (while_status fuel lines j line st) as [st1| |] eqn:W;
      try discriminate.
    apply while_status_keeps in W as [W1 W2].
    destruct (else_clause R P all_symbols lines j line st1 hp)
      as [hp1 [st2| |]] eqn:E; try discriminate.
    apply else_clause_row_locals in E; [|apply Hno; now left]. subst st2.
    intros H. apply IH in H; [|intros l Hin; apply Hno; now right].
    destruct H as [H1 H2]. split; congruence.
Qed.

(** X14: when the call returns, [primal_solutions] and [objective] are
    those of the last line that holds the primal marker: the line after
    it without its terminator, and the float read from the last piece of
    the line after that. *)
Theorem read_values_last_marker
    fuel R P all_symbols file_txt hp hp' res pre line rest l1 l2 V :
  _read_values_from_sol fuel R P all_symbols file_txt hp = (hp', Normal res) ->
  readlines file_txt = (pre ++ line :: rest)%list ->
  str_in "# Primal solution values" line = true ->
  (forall line', In line' rest ->
                 str_in "# Primal solution values" line' = false) ->
  nth_error (readlines file_txt) (List.length pre + 1) = Some l1 ->
  nth_error (readlines file_txt) (List.length pre + 2) = Some l2 ->
  py_float (objective_token l2) = Some V ->
  primal_solutions res = Some (rstrip_nl l1) /\ objective res = Some V.
Proof.
  unfold _read_values_from_sol. intros Hrun Hl Hm Hno H1 H2 Hf.
  replace (for_lines fuel R P all_symbols (readlines file_txt) 0
             (readlines file_txt) _ hp)
    with (for_lines fuel R P all_symbols (readlines file_txt) 0
            (pre ++ line :: rest)%list
            {| status := None; primal_solutions := None;
               objective := None |} hp)
    in Hrun by now rewrite <- Hl.
  rewrite for_lines_app in Hrun.
  destruct (for_lines fuel R P all_symbols (readlines file_txt) 0 pre _ hp)
    as [hp1 [st1| |]]; try discriminate.
  cbn [Nat.add for_lines] in Hrun.
  destruct (while_status fuel (readlines file_txt) (List.length pre) line st1)
    as [st1'| |]; try discriminate.
  rewrite else_clause_marker in Hrun by exact Hm.
  apply getitem_Normal in H1, H2. rewrite H1, H2 in Hrun. cbn [bind] in Hrun.
  rewrite Hf in Hrun.
  apply for_lines_no_marker in Hrun; [|exact Hno].
  exact Hrun.
Qed.

(** X15: a component that is no decision variable is never modified,
    however the call ends and whatever the file says. *)
Theorem read_values_keeps_non_variables
    fuel R P all_symbols file_txt hp o :
  is_variable_type (hp o) = false ->
  fst (_read_values_from_sol fuel R P all_symbols file_txt hp) o = hp o.
Proof.
  intros Hv.
  destruct (_read_values_from_sol fuel R P all_symbols file_txt hp)
    as [hp' r] eqn:E.
  unfold _read_values_from_sol in E. cbn [fst].
  destruct (for_lines_changes _ _ _ _ _ _ _ _ _ _ _ E o)
    as [Heq | (line & key & _ & _ & _ & Hvar)]; [exact Heq|].
  congruence.
Qed.

End DecoderMore.

(** ** More on the completion check *)

(** X16: a text that the check accepts is still accepted after anything
    that ends in a line terminator is appended to it: the check cannot
    tell a finished file from one that is still growing line by line. *)
Theorem check_complete_sol_append file_txt more :
  _check_complete_sol file_txt = true ->
  endswith more nl = true ->
  _check_complete_sol (file_txt ++ more) = true.
Proof.
  unfold _check_complete_sol. rewrite !andb_true_iff.
  rewrite !str_in_spec, !endswith_spec.
  intros [[l [r Hc]] _] [body Hb]. split.
  - exists l, (r ++ more). rewrite Hc. now rewrite !append_assoc.
  - exists (file_txt ++ body). rewrite Hb. now rewrite append_assoc.
Qed.

(** ** Values the post-processing leaves alone *)

Module DecFloatExact.

Import DecFloat.

Local Open Scope Z_scope.

Lemma dround_enough_places d n :
  dnorm d = d -> - n <= dexp d -> dround d n = d.
Proof.
  intros Hn Hle. unfold dround.
  destruct (Z.leb_spec (- n - dexp d) 0) as [_|H]; [exact Hn | lia].
Qed.

(** X17: a value in the range of binary64 with at most one decimal
    place, and so every integer there, comes out of [normalize] unchanged
    whenever at least one place is kept ([R >= 1]) and the precision is
    one for which [10 ** (-P)] is not zero ([1 <= P <= 323]): such values
    are decoded exactly. *)
Theorem normalize_exact_one_place (d : dec) (R P : Z) :
  dnorm d = d -> -1 <= dexp d -> in_range d = true ->
  1 <= R -> 1 <= P <= 323 ->
  normalize (Fin d) R P = Normal (Fin d).
Proof.
  intros Hn He Hr HR HP. unfold normalize. cbv zeta.
  change (py_round (Fin d) R) with (Fin (dround d R)).
  rewrite (dround_enough_places d R Hn) by lia.
  rewrite (DecFloatFacts.abs_plus_pow10_in_range d P Hr HP).
  pose proof (DecFloatFacts.abs_plus_pow10_pos d P) as Hpos.
  change (floor_log10 (Fin ?y)) with (dfloor_log10 y).
  unfold dfloor_log10. apply Z.ltb_lt in Hpos. rewrite Hpos.
  cbn [floor_outcome bind].
  change (py_round (Fin d) ?n) with (Fin (dround d n)).
  rewrite (dround_enough_places d _ Hn) by lia.
  reflexivity.
Qed.

End DecFloatExact.

(** ** Further instances *)

Module MoreInstances.

Import PyDict HiGHSFiles.

(** Options as a caller would pass them. *)
Definition old_options : dict (pyval DecFloat.t) :=
  [("presolve", PyStr "on"); ("threads", PyInt 4)].

Definition new_options : dict (pyval DecFloat.t) :=
  [("mip_rel_gap", PyFloat (DecFloat.lit 1 (-2))); ("presolve", PyStr "off")].

Definition mixed_options : dict (pyval DecFloat.t) :=
  [("time_limit", PyNone); ("log_file", PyStr "run.log");
   ("solution_file", PyStr "out.sol"); ("threads", PyInt 2)].

Definition attributes : dict (pyval DecFloat.t) :=
  [("executable", PyStr "highs"); ("time_limit", PyInt 60);
   ("write_model_file", PyNone); ("solution_file", PyNone);
   ("log_file", PyNone)].

(** A file that stops after the symbol of its last row, after a good
    row. *)
Definition sol_good_then_bad : string :=
  unlines ["Model status"; "Optimal"; "x1 1.5"] ++ "x2".

(** A file that ends one line after the primal marker. *)
Definition sol_marker_at_end : string :=
  unlines ["Model status"; "Optimal"; "# Primal solution values"; "Feasible"].

(** A file with a row for a component that is no variable. *)
Definition sol_row_for_constraint : string :=
  unlines ["Model status"; "Optimal"; "c1 5.0"; "x1 2.0"].

Lemma new_options_NoDup : NoDup (keys new_options).
Proof. repeat constructor; cbn; intuition discriminate. Defined.

Lemma old_options_NoDup : NoDup (keys old_options).
Proof. repeat constructor; cbn; intuition discriminate. Defined.

Lemma mixed_options_NoDup : NoDup (keys mixed_options).
Proof. repeat constructor; cbn; intuition discriminate. Defined.

Lemma parse_options_lookup_witness :
  get (parse_options old_options new_options) "presolve" = Some (PyStr "off")
  /\ get (parse_options old_options new_options) "threads"
     = get old_options "threads".
Proof.
  destruct (HiGHSFilesFacts.parse_options_lookup old_options new_options
              new_options_NoDup) as [H1 H2].
  split.
  - apply H1. cbn. auto.
  - apply H2. cbn. intuition discriminate.
Defined.

Lemma parse_options_keys_witness :
  NoDup (keys (parse_options old_options new_options)) /\
  keys (parse_options old_options new_options)
  = ["presolve"; "threads"; "mip_rel_gap"].
Proof.
  exact (HiGHSFilesFacts.parse_options_keys old_options new_options
           old_options_NoDup new_options_NoDup).
Defined.

Lemma set_options_file_lines_witness :
  readlines (snd (set_options fmt old_options new_options))
  = ["presolve = off" ++ nl; "threads = 4" ++ nl; "mip_rel_gap = 0.01" ++ nl].
Proof.
  etransitivity;
    [apply (HiGHSFilesFacts.set_options_file_lines fmt old_options
              new_options)
    | reflexivity].
  intros kv Hin. cbn in Hin.
  destruct Hin as [<- | [<- | [<- | []]]]; split; reflexivity.
Defined.

Lemma reset_options_keeps_options_witness :
  reset_options fmt old_options new_options
  = set_options fmt old_options new_options
  /\ get (fst (reset_options fmt old_options new_options)) "threads"
     = get old_options "threads".
Proof.
  destruct (HiGHSFilesFacts.reset_options_keeps_options fmt old_options
              new_options new_options_NoDup) as [H1 H2].
  split; [exact H1|]. apply H2. cbn. intuition discriminate.
Defined.

Lemma temporary_names_distinct_witness :
  filename (parse_file SolFile_from_suffix SolFile None (Some (str_nat 17)))
  <> filename (parse_file SolFile_from_suffix SolFile None (Some (str_nat 18))).
Proof.
  apply (proj1 HiGHSFilesFacts.temporary_names_distinct SolFile SolFile
           17%nat 18%nat).
  discriminate.
Defined.

Lemma user_file_never_deleted_witness :
  let self :=
    parse_files_of ClsSolFile SolFile
      [(Some "out.sol", Some "17"); (None, Some "18")] in
  filename self = "./tmp/solution18.sol" /\
  temporary self = false /\
  delete_file_of ClsSolFile (fun _ => true) self = None.
Proof.
  intros self. split; [reflexivity|].
  apply (proj1 HiGHSFilesFacts.user_file_never_deleted ClsSolFile
           (fun _ => true) SolFile
           [(Some "out.sol", Some "17"); (None, Some "18")]
           "o"%char "ut.sol" (Some "17")).
  - right. right. reflexivity.
  - now left.
Defined.

Lemma split_options_partition_witness :
  _split_options mixed_options
  = ([("time_limit", PyNone); ("solution_file", PyStr "out.sol")],
     [("log_file", PyStr "run.log"); ("threads", PyInt 2)]).
Proof.
  exact (proj1 (split_options_partition mixed_options mixed_options_NoDup)).
Defined.

Lemma parse_cmd_options_lookup_witness :
  get (_parse_cmd_options attributes mixed_options) "time_limit"
  = Some (PyInt 60)
  /\ get (_parse_cmd_options attributes mixed_options) "solution_file"
     = Some (PyStr "out.sol").
Proof.
  destruct (parse_cmd_options_lookup attributes mixed_options
              mixed_options_NoDup) as [H1 H2].
  split.
  - rewrite H2; [reflexivity|]. intros v Hin. cbn in Hin.
    destruct Hin as [E | [E | [E | [E | []]]]]; inversion E; reflexivity.
  - apply H1; [cbn; auto | discriminate].
Defined.

Lemma HiGHS_parse_options_separation_witness :
  get (snd (HiGHS_parse_options attributes old_options mixed_options))
    "solution_file" = None
  /\ get (fst (HiGHS_parse_options attributes old_options mixed_options))
       "log_file" = Some PyNone
  /\ get (snd (HiGHS_parse_options attributes old_options mixed_options))
       "log_file" = Some (PyStr "run.log").
Proof.
  destruct (HiGHS_parse_options_separation attributes old_options
              mixed_options mixed_options_NoDup) as (H1 & H2 & H3).
  split; [|split].
  - rewrite H1; reflexivity.
  - rewrite H2; reflexivity.
  - apply H3; [cbn; auto | reflexivity].
Defined.

Lemma write_symbol_map_keys_witness :
  _write_symbol_map Sample.table_mixed = Sample.table_mixed.
Proof.
  apply (proj2 (write_symbol_map_keys Sample.table_mixed)).
  repeat constructor; cbn; intuition discriminate.
Defined.

Lemma read_values_status_witness :
  str_in "Model status" (hd "" (readlines Sample.sol_x1)) = true /\
  exists l1,
    nth_error (readlines Sample.sol_x1) 1 = Some l1 /\
    status {| status := Some "Optimal"; primal_solutions := Some "1";
              objective := Some (DecFloat.lit 42 0) |}
    = Some (rstrip_nl l1).
Proof.
  apply (proj1 (read_values_status 2 8 8 Sample.table_x1 Sample.fresh_vars)
           Sample.sol_x1
           (fst (_read_values_from_sol 2 8 8 Sample.table_x1 Sample.sol_x1
                   Sample.fresh_vars))).
  - discriminate.
  - vm_compute. reflexivity.
Defined.

Lemma read_values_error_keeps_assignments_witness :
  _read_values_from_sol 2 8 8 Sample.table_x1_x4 sol_good_then_bad
    Sample.fresh_vars
  = (set_value Sample.fresh_vars 0%nat (DecFloat.lit 15 (-1)),
     Raise IndexError).
Proof.
  refine (proj1 (read_values_error_keeps_assignments 1 8 8 Sample.table_x1_x4
                   sol_good_then_bad Sample.fresh_vars
                   ["Model status" ++ nl; "Optimal" ++ nl; "x1 1.5" ++ nl]
                   "x2" []
                   (set_value Sample.fresh_vars 0%nat (DecFloat.lit 15 (-1)))
                   {| status := Some "Optimal"; primal_solutions := None;
                      objective := None |}
                   "x2" 1%nat _ _ _ _ _ _) _);
    vm_compute; reflexivity.
Defined.

Lemma read_values_marker_at_end_witness :
  _read_values_from_sol 2 8 8 Sample.table_x1 sol_marker_at_end
    Sample.fresh_vars
  = (Sample.fresh_vars, Raise IndexError).
Proof.
  apply (read_values_marker_at_end 1 8 8 Sample.table_x1 sol_marker_at_end
           Sample.fresh_vars
           ["Model status" ++ nl; "Optimal" ++ nl]
           ("# Primal solution values" ++ nl) ["Feasible" ++ nl]
           Sample.fresh_vars
           {| status := Some "Optimal"; primal_solutions := None;
              objective := None |}).
  - reflexivity.
  - cbn. lia.
  - reflexivity.
  - reflexivity.
  - reflexivity.
Defined.

Lemma read_values_last_marker_witness :
  primal_solutions
    {| status := Some "Optimal"; primal_solutions := Some "1";
       objective := Some (DecFloat.lit 42 0) |}
  = Some (rstrip_nl ("1" ++ nl))
  /\ objective
       {| status := Some "Optimal"; primal_solutions := Some "1";
          objective := Some (DecFloat.lit 42 0) |}
     = Some (DecFloat.lit 42 0).
Proof.
  apply (read_values_last_marker 2 8 8 Sample.table_x1 Sample.sol_x1
           Sample.fresh_vars
           (fst (_read_values_from_sol 2 8 8 Sample.table_x1 Sample.sol_x1
                   Sample.fresh_vars))
           {| status := Some "Optimal"; primal_solutions := Some "1";
              objective := Some (DecFloat.lit 42 0) |}
           ["Model status" ++ nl; "Optimal" ++ nl; nl]
           ("# Primal solution values" ++ nl)
           ["1" ++ nl; "Objective 42.0" ++ nl; "x1 3.14159265" ++ nl]
           ("1" ++ nl) ("Objective 42.0" ++ nl) (DecFloat.lit 42 0)).
  - vm_compute. reflexivity.
  - reflexivity.
  - reflexivity.
  - intros line' Hin. cbn in Hin.
    destruct Hin as [<- | [<- | [<- | []]]]; reflexivity.
  - reflexivity.
  - reflexivity.
  - reflexivity.
Defined.

Lemma read_values_keeps_non_variables_witness :
  fst (_read_values_from_sol 2 8 8 Sample.table_mixed sol_row_for_constraint
         Sample.heap_mixed) 1%nat
  = Sample.heap_mixed 1%nat.
Proof.
  apply (read_values_keeps_non_variables 2 8 8 Sample.table_mixed
           sol_row_for_constraint Sample.heap_mixed 1%nat).
  reflexivity.
Defined.

Lemma check_complete_sol_append_witness :
  _check_complete_sol (Sample.sol_missing_value ++ ("x9 1.0" ++ nl)) = true.
Proof.
  apply (check_complete_sol_append Sample.sol_missing_value ("x9 1.0" ++ nl));
    reflexivity.
Defined.

Lemma normalize_exact_one_place_witness :
  normalize (DecFloat.lit 125 (-1)) 8 8 = Normal (DecFloat.lit 125 (-1)).
Proof.
  apply (DecFloatExact.normalize_exact_one_place (DecFloat.mkdec 125 (-1)) 8 8).
  - reflexivity.
  - vm_compute. discriminate.
  - vm_compute. reflexivity.
  - vm_compute. discriminate.
  - split; vm_compute; discriminate.
Defined.

End MoreInstances.

(** ** Termination of the decoder, and the objective token *)

Section DecoderTermination.

Context {F : Type} {FO : FloatOps F}.

Implicit Types (st : locals F) (hp : heap F) (all_symbols : symtab).

Lemma truncate_not_OutOfFuel (x : F) P : truncate x P <> OutOfFuel.
Proof.
  unfold truncate, bind.
  destruct (floor_log10 _); cbn [floor_outcome]; discriminate.
Qed.

Lemma else_clause_not_OutOfFuel R P all_symbols lines j line st hp hp1 :
  else_clause R P all_symbols lines j line st hp <> (hp1, OutOfFuel).
Proof.
  destruct (str_in "# Primal solution values" line) eqn:Hm.
  - rewrite else_clause_marker by exact Hm. unfold getitem.
    destruct (nth_error lines (j + 1)); cbn [bind]; [|congruence].
    destruct (nth_error lines (j + 2)); cbn [bind]; congruence.
  - unfold else_clause. rewrite Hm. cbv zeta. rewrite split1_length_pos.
    unfold getitem.
    destruct (nth_error (split1 line) 0) as [key|]; [|congruence].
    destruct (lookup all_symbols key) as [o|]; [|congruence].
    destruct (is_variable_type (hp o)); [|congruence].
    destruct (nth_error (split1 line) 1) as [txt|]; cbn [bind]; [|congruence].
    destruct (py_float txt) as [V|]; [|congruence].
    destruct (truncate (py_round V R) P) as [v|e|] eqn:E; try congruence.
    now apply truncate_not_OutOfFuel in E.
Qed.

(** Once [status] is set, the loop never runs out of budget. *)
Lemma for_lines_terminates fuel R P all_symbols lines rest s :
  forall j st hp hp',
    status st = Some s ->
    for_lines (S fuel) R P all_symbols lines j rest st hp <> (hp', OutOfFuel).
Proof.
  induction rest as [|line rest IH]; intros j st hp hp' Hs; cbn [for_lines].
  - congruence.
  - rewrite while_status_skip by now rewrite Hs.
    destruct (else_clause R P all_symbols lines j line st hp)
      as [hp1 [st2|e|]] eqn:E.
    + apply IH. apply else_clause_status in E. congruence.
    + congruence.
    + now apply else_clause_not_OutOfFuel in E.
Qed.

(** X18: the method fails to terminate exactly on the non-empty files
    whose first line lacks ["Model status"]; on every other file it
    returns or raises, within two tests of its [while] condition per
    line. *)
Theorem read_values_hangs_iff fuel R P all_symbols file_txt hp :
  snd (_read_values_from_sol (S (S fuel)) R P all_symbols file_txt hp)
  = OutOfFuel
  <-> file_txt <> "" /\
      str_in "Model status" (hd "" (readlines file_txt)) = false.
Proof.
  unfold _read_values_from_sol. split.
  - destruct (readlines file_txt) as [|l0 rest] eqn:E.
    + cbn. discriminate.
    + intros H. split.
      * intros ->. discriminate E.
      * cbn [hd]. destruct (str_in "Model status" l0) eqn:Hm; [|reflexivity].
        exfalso. revert H. cbn [for_lines while_status].
        rewrite Hm. cbn [status is_None andb Nat.leb].
        unfold getitem.
        destruct (nth_error (l0 :: rest) (0 + 1)) as [l1|]; cbn [bind];
          [|discriminate].
        destruct (else_clause R P all_symbols (l0 :: rest) 0 l0 _ hp)
          as [hp1 [st2|e|]] eqn:C; cbn [snd]; try discriminate.
        -- apply else_clause_status in C. cbn [status] in C.
           destruct (for_lines (S (S fuel)) R P all_symbols (l0 :: rest) 1
                       rest st2 hp1) as [hp2 r] eqn:L.
           cbn [snd]. intros ->.
           now apply (for_lines_terminates _ _ _ _ _ _ _ _ _ _ _ C) in L.
        -- intros _. now apply else_clause_not_OutOfFuel in C.
  - intros [Hne Hm]. apply readlines_nonempty in Hne.
    destruct (readlines file_txt) as [|l0 rest] eqn:E; [congruence|].
    cbn [hd] in Hm. cbn [for_lines].
    now rewrite while_status_spin by (reflexivity || lia || exact Hm).
Qed.

End DecoderTermination.

Lemma rstrip_nl_blank r : rstrip_nl (String " " r) = String " " (rstrip_nl r).
Proof. cbn [rstrip_nl]. now destruct (rstrip_nl r). Qed.

Lemma rstrip_nl_before_blank a r :
  rstrip_nl (a ++ String " " r) = a ++ String " " (rstrip_nl r).
Proof.
  induction a as [|c a IH]; [apply rstrip_nl_blank|].
  cbn [append rstrip_nl]. rewrite IH. now destruct a.
Qed.

Lemma rstrip_nl_no_blank s :
  all_chars (fun c => negb (Ascii.eqb c " ")) s = true ->
  all_chars (fun c => negb (Ascii.eqb c " ")) (rstrip_nl s) = true.
Proof.
  induction s as [|c s IH]; cbn [all_chars rstrip_nl]; [reflexivity|].
  rewrite andb_true_iff. intros [Hc Hs]. specialize (IH Hs).
  destruct (rstrip_nl s) as [|c' r].
  - destruct (Ascii.eqb c LF); cbn [all_chars]; [reflexivity|].
    now rewrite Hc.
  - cbn [all_chars] in *. now rewrite Hc, IH.
Qed.

Lemma split1_no_blank s :
  all_chars (fun c => negb (Ascii.eqb c " ")) s = true -> split1 s = [s].
Proof.
  induction s as [|c s IH]; cbn [all_chars split1]; [reflexivity|].
  rewrite andb_true_iff, negb_true_iff. intros [-> Hs]. now rewrite IH.
Qed.

(** X19: the token read as the objective is the whole line after its
    first blank, terminator stripped, whatever word stands before the
    blank; on a line without a blank it is the whole line. *)
Theorem objective_token_spec :
  (forall word r,
      all_chars (fun c => negb (Ascii.eqb c " ")) word = true ->
      objective_token (word ++ String " " r) = rstrip_nl r)
  /\
  (forall l,
      all_chars (fun c => negb (Ascii.eqb c " ")) l = true ->
      objective_token l = rstrip_nl l).
Proof.
  split.
  - intros word r Hw. unfold objective_token.
    rewrite rstrip_nl_before_blank, split1_at_blank by exact Hw. reflexivity.
  - intros l Hl. unfold objective_token.
    rewrite split1_no_blank by now apply rstrip_nl_no_blank. reflexivity.
Qed.

Lemma read_values_hangs_iff_witness :
  snd (_read_values_from_sol 2 8 8 Sample.table_x1
         ("x1 1.0" ++ nl) Sample.fresh_vars)
  = OutOfFuel.
Proof.
  apply (proj2 (read_values_hangs_iff 0 8 8 Sample.table_x1 ("x1 1.0" ++ nl)
                  Sample.fresh_vars)).
  split; [discriminate | reflexivity].
Defined.

Lemma objective_token_spec_witness :
  objective_token ("Total" ++ String " " ("42.0" ++ nl)) = "42.0".
Proof.
  etransitivity;
    [apply (proj1 objective_token_spec "Total" ("42.0" ++ nl)); reflexivity
    | reflexivity].
Defined.
